(** * EnviroSense backend: the credential lifecycle of [app/api/v1/endpoints/auth.py]

    A shallow embedding of the authentication endpoints (login, profile update,
    password change, password-reset issuance and consumption) and of the
    [users] table of [app/models/user.py], with the properties of the
    credential lifecycle stated and proved over it.

    Python values are modelled as follows: [int] as [Z], [str] as [string],
    [datetime] as a [Z] count of microseconds, a value that may be [None] as
    [option], a response [dict] as an association list.  An endpoint is a
    computation in a state-and-exception monad: the state (the world and the
    log) survives a [raise], as it does in Python. *)

From Stdlib Require Import String Ascii ZArith List Bool Lia.
Import ListNotations.

Local Open Scope string_scope.
Local Open Scope Z_scope.

(** ** app/models/user.py *)

Module Models.

  (** One row of the table [users]. *)
Record User := mkUser {
    id : Z;
    username : string;
    email : string;
    hashed_password : string;
    is_active : bool;
    (* password attempt limitation *)
    failed_login_attempts : Z;
    last_failed_login : option Z;
    account_locked_until : option Z;
    (* password inputs *)
    reset_token : option string;
    reset_token_expires : option Z
  }.

Definition set_profile (un em : string) (u : User) : User :=
    mkUser (id u) un em (hashed_password u) (is_active u)
           (failed_login_attempts u) (last_failed_login u) (account_locked_until u)
           (reset_token u) (reset_token_expires u).

Definition set_hashed_password (h : string) (u : User) : User :=
    mkUser (id u) (username u) (email u) h (is_active u)
           (failed_login_attempts u) (last_failed_login u) (account_locked_until u)
           (reset_token u) (reset_token_expires u).

Definition set_reset (tok : option string) (exp : option Z) (u : User) : User :=
    mkUser (id u) (username u) (email u) (hashed_password u) (is_active u)
           (failed_login_attempts u) (last_failed_login u) (account_locked_until u)
           tok exp.

Definition set_lockout (n : Z) (lf lock : option Z) (u : User) : User :=
    mkUser (id u) (username u) (email u) (hashed_password u) (is_active u)
           n lf lock (reset_token u) (reset_token_expires u).

End Models.
Import Models.

(** ** The world an endpoint runs in *)

(** What lies outside the process: the rows of [users] as the session sees
    them, the wall clock ([datetime.now(timezone.utc)], in microseconds), the
    pool the operating system draws random tokens from, and the schedule of
    store faults (an entry [true] makes the store operation that consumes it
    fail). *)
Record World := mkWorld {
  users : list User;
  clock : Z;
  entropy : list string;
  faults : list bool
}.

Definition with_users (rows : list User) (w : World) : World :=
  mkWorld rows (clock w) (entropy w) (faults w).

Definition with_clock (t : Z) (w : World) : World :=
  mkWorld (users w) t (entropy w) (faults w).

Definition with_faults (fs : list bool) (w : World) : World :=
  mkWorld (users w) (clock w) (entropy w) fs.

(** [timedelta(hours=1)] and [timedelta(minutes=m)], in microseconds. *)
Definition timedelta_hours (h : Z) : Z := h * 3600000000.
Definition timedelta_minutes (m : Z) : Z := m * 60000000.

(** ** Exceptions, logging and the endpoint monad *)

(** [HTTPException] is what FastAPI turns into a response with that status;
    [Exception] stands for every other exception, carrying its [str]. *)
Inductive exn :=
| HTTPException (status_code : Z) (detail : string)
| Exception (msg : string)
| AccountLocked (remaining : Z).

Inductive Outcome (A : Type) :=
| Return (a : A)
| Raise (e : exn).
Arguments Return {A} a.
Arguments Raise {A} e.

Inductive Level := INFO | WARNING | ERROR.

Definition LogRecord := (Level * string)%type.

Definition State := (World * list LogRecord)%type.

Definition M (A : Type) := State -> Outcome A * State.

Definition ret {A} (a : A) : M A := fun s => (Return a, s).

Definition bind {A B} (m : M A) (k : A -> M B) : M B :=
  fun s => match m s with
           | (Return a, s') => k a s'
           | (Raise e, s') => (Raise e, s')
           end.

Definition raise {A} (e : exn) : M A := fun s => (Raise e, s).

(** [try: m except ... as e: h e] *)
Definition try_except {A} (m : M A) (h : exn -> M A) : M A :=
  fun s => match m s with
           | (Raise e, s') => h e s'
           | r => r
           end.

Declare Scope py_scope.
Delimit Scope py_scope with py.
Notation "x <- m ;; k" := (bind m (fun x => k))
  (at level 100, m at next level, right associativity) : py_scope.
Notation "m ;; k" := (bind m (fun _ => k))
  (at level 100, right associativity) : py_scope.
Local Open Scope py_scope.

Definition logger (lv : Level) (msg : string) : M unit :=
  fun '(w, l) => (Return tt, (w, (l ++ [(lv, msg)])%list)).

Definition datetime_now : M Z := fun '(w, l) => (Return (clock w), (w, l)).

(** A call into a collaborator that may raise an exception other than
    [HTTPException] ([inl msg]) or return ([inr a]), and may change the world
    either way. *)
Definition call {A} (f : World -> (string + A) * World) : M A :=
  fun '(w, l) => match f w with
                 | (inl msg, w') => (Raise (Exception msg), (w', l))
                 | (inr a, w') => (Return a, (w', l))
                 end.

(** A call into a collaborator that may raise any exception. *)
Definition call_exn {A} (f : World -> (exn + A) * World) : M A :=
  fun '(w, l) => match f w with
                 | (inl e, w') => (Raise e, (w', l))
                 | (inr a, w') => (Return a, (w', l))
                 end.

Definition call_total {A} (f : World -> A * World) : M A :=
  fun '(w, l) => let (a, w') := f w in (Return a, (w', l)).

(** ** Responses *)

Inductive JSON :=
| JStr (s : string)
| JInt (z : Z)
| JBool (b : bool).

Definition Response := list (string * JSON).

(** Python truthiness of a [str]. *)
Definition truthy (s : string) : bool := negb (s =? "")%string.

Definition len (s : string) : Z := Z.of_nat (String.length s).

(** ** Raw SQL run through [db.execute] and [db.commit] *)

(** A store operation consumes the head of the fault schedule. *)
Definition next_fault (w : World) : bool * World :=
  match faults w with
  | f :: fs => (f, with_faults fs w)
  | [] => (false, w)
  end.

(** On a fault the operation raises and leaves the rows alone. *)
Definition db_io {A} (op : list User -> (string + A) * list User) : M A :=
  fun '(w, l) =>
    let (fault, w0) := next_fault w in
    if fault then (Raise (Exception "OperationalError"), (w0, l))
    else match op (users w0) with
         | (inl msg, rows) => (Raise (Exception msg), (with_users rows w0, l))
         | (inr a, rows) => (Return a, (with_users rows w0, l))
         end.

(** [SELECT id FROM users WHERE username = :username LIMIT 1], [fetchone()] *)
Definition select_id_by_username (un : string) : M (option Z) :=
  db_io (fun rows => (inr (option_map id (find (fun u => (username u =? un)%string) rows)), rows)).

(** [SELECT id FROM users WHERE email = :email LIMIT 1], [fetchone()] *)
Definition select_id_by_email (em : string) : M (option Z) :=
  db_io (fun rows => (inr (option_map id (find (fun u => (email u =? em)%string) rows)), rows)).

Definition update_where_id (uid : Z) (f : User -> User) (rows : list User) : list User :=
  map (fun u => if id u =? uid then f u else u) rows.

(** [username] and [email] are declared [unique=True]: an update that gives a
    row the username or the email of another row is refused by the store. *)
Definition violates_unique (uid : Z) (un em : string) (rows : list User) : bool :=
  existsb (fun u => id u =? uid) rows
  && existsb (fun u => negb (id u =? uid)
                       && ((username u =? un)%string || (email u =? em)%string)) rows.

(** [UPDATE users SET username = :username, email = :email WHERE id = :user_id] *)
Definition update_profile_sql (un em : string) (uid : Z) : M unit :=
  db_io (fun rows =>
           if violates_unique uid un em rows then (inl "IntegrityError", rows)
           else (inr tt, update_where_id uid (set_profile un em) rows)).

(** [UPDATE users SET hashed_password = :hashed_password WHERE id = :user_id] *)
Definition update_password_sql (h : string) (uid : Z) : M unit :=
  db_io (fun rows => (inr tt, update_where_id uid (set_hashed_password h) rows)).

(** [db.commit()] *)
Definition db_commit : M unit :=
  db_io (fun rows => (inr tt, rows)).

(** ** Collaborators that live outside [auth.py] *)

(** [app.core.auth], [app.core.db_utils], [secrets] and the framework's
    [str] of an [HTTPException] are taken as an interface.  A function of
    [db_utils] may return or raise (never an [HTTPException]);
    [authenticate_user] may raise any exception. *)
Class Collaborators := {
  (* app.core.auth *)
  authenticate_user : string -> string -> World -> (exn + option User) * World;
  create_access_token : string -> Z -> World -> string;
  get_password_hash : string -> string;
  verify_password : string -> string -> bool;
  ACCESS_TOKEN_EXPIRE_MINUTES : Z;
  (* app.core.db_utils *)
  get_user_by_email : string -> World -> (string + option User) * World;
  get_user_by_reset_token : string -> World -> (string + option User) * World;
  update_user_password : Z -> string -> World -> (string + bool) * World;
  store_reset_token : Z -> option string -> option Z -> World -> (string + bool) * World;
  (* secrets *)
  token_urlsafe : Z -> World -> string * World;
  (* str(e) for an HTTPException e *)
  str_HTTPException : Z -> string -> string
}.

(** ** Request schemas *)

Record OAuth2PasswordRequestForm := mkForm {
  form_username : string;
  form_password : string
}.

Record UserUpdate := mkUserUpdate {
  upd_username : string;
  upd_email : string
}.

Record PasswordChange := mkPasswordChange {
  current_password : string;
  pc_new_password : string
}.

Record ForgotPasswordRequest := mkForgot {
  forgot_email : string
}.

Record ResetPasswordRequest := mkReset {
  token : string;
  new_password : string;
  reset_email : string  (* EmailStr; added for demo purposes *)
}.

(** The named outcomes of the specification, as the endpoints raise them. *)
Definition InvalidCredentials : exn := HTTPException 401 "Incorrect username or password".
Definition IncorrectPassword : exn := HTTPException 400 "Incorrect current password".
Definition MalformedToken : exn := HTTPException 400 "Invalid token format".
Definition EmailRequired : exn := HTTPException 400 "Please provide your email along with the token".
Definition InvalidResetRequest : exn := HTTPException 400 "Invalid token or email".
Definition ResetPersistenceError : exn :=
  HTTPException 500 "An error occurred while resetting your password".
Definition InternalFailure : exn := HTTPException 500 "An unexpected error occurred".

Definition generic_reset_response : Response :=
  [("message", JStr "If your email is registered, you will receive password reset instructions.")].

Definition reset_success_response : Response :=
  [("message", JStr "Password has been reset successfully")].

(** ** The endpoints of auth.py *)

Section Endpoints.

Context {C : Collaborators}.

  (** [str(e)], as the f-strings of the handlers use it. *)
Definition str_exn (e : exn) : string :=
    match e with
    | HTTPException sc d => str_HTTPException sc d
    | Exception msg => msg
    | AccountLocked _ => "AccountLocked"
    end.

  (** [POST /token] *)
Definition login_for_access_token (form_data : OAuth2PasswordRequestForm) : M Response :=
    user <- call_exn (authenticate_user (form_username form_data) (form_password form_data)) ;;
    match user with
    | None => raise InvalidCredentials
    | Some user =>
        let access_token_expires := timedelta_minutes ACCESS_TOKEN_EXPIRE_MINUTES in
        access_token <- call_total (fun w =>
          (create_access_token (username user) access_token_expires w, w)) ;;
        ret [("access_token", JStr access_token); ("token_type", JStr "bearer")]
    end.

  (** [PUT /me] *)
Definition update_user_profile (user_update : UserUpdate) (current_user : User) : M Response :=
    try_except
      ((if negb (upd_username user_update =? username current_user)%string then
          result <- select_id_by_username (upd_username user_update) ;;
          match result with
          | Some _ => raise (HTTPException 400 "Username already exists")
          | None => ret tt
          end
        else ret tt) ;;
       (if negb (upd_email user_update =? email current_user)%string then
          result <- select_id_by_email (upd_email user_update) ;;
          match result with
          | Some _ => raise (HTTPException 400 "Email already exists")
          | None => ret tt
          end
        else ret tt) ;;
       update_profile_sql (upd_username user_update) (upd_email user_update) (id current_user) ;;
       db_commit ;;
       ret [("id", JInt (id current_user));
            ("username", JStr (upd_username user_update));
            ("email", JStr (upd_email user_update));
            ("is_active", JBool (is_active current_user))])
      (fun e =>
         logger ERROR ("Error updating user profile: " ++ str_exn e) ;;
         raise (HTTPException 500
                  ("An error occurred while updating the profile: " ++ str_exn e))).

  (** [POST /change-password] *)
Definition change_password (password_change : PasswordChange) (current_user : User)
    : M Response :=
    try_except
      (if negb (verify_password (current_password password_change)
                                (hashed_password current_user))
       then raise IncorrectPassword
       else
         let hashed := get_password_hash (pc_new_password password_change) in
         update_password_sql hashed (id current_user) ;;
         db_commit ;;
         ret [("message", JStr "Password changed successfully")])
      (fun e =>
         logger ERROR ("Error changing password: " ++ str_exn e) ;;
         raise (HTTPException 500
                  ("An error occurred while changing the password: " ++ str_exn e))).

  (** [POST /forgot-password] *)
Definition forgot_password (request : ForgotPasswordRequest) : M Response :=
    try_except
      (user <- call (get_user_by_email (forgot_email request)) ;;
       match user with
       | None =>
           logger INFO ("Forgot password request for non-existent email: "
                        ++ forgot_email request) ;;
           ret generic_reset_response
       | Some user =>
           reset_token <- call_total (token_urlsafe 32) ;;
           logger INFO ("Password reset requested for user: " ++ username user) ;;
           logger INFO ("Reset token generated: " ++ reset_token) ;;
           now <- datetime_now ;;
           let expires_at := now + timedelta_hours 1 in
           token_stored <- call (store_reset_token (id user) (Some reset_token)
                                                   (Some expires_at)) ;;
           (if token_stored : bool then logger INFO "Token stored in database"
            else logger WARNING
                   "Token could not be stored in database - it will only be logged") ;;
           ret generic_reset_response
       end)
      (fun e =>
         logger ERROR ("Unexpected error in forgot_password: " ++ str_exn e) ;;
         raise InternalFailure).

  (** Lines 257-269 of [reset_password]: by token first, then by email. *)
Definition resolve_reset_user (request : ResetPasswordRequest) : M User :=
    user <- call (get_user_by_reset_token (token request)) ;;
    match user with
    | Some user => ret user
    | None =>
        user <- call (get_user_by_email (reset_email request)) ;;
        match user with
        | Some user => ret user
        | None =>
            logger WARNING ("Reset password attempt for non-existent email: "
                            ++ reset_email request) ;;
            raise InvalidResetRequest
        end
    end.

  (** Lines 271-293 of [reset_password]: the inner [try]. *)
Definition update_reset_password (request : ResetPasswordRequest) (user : User)
    : M Response :=
    try_except
      (let hashed := get_password_hash (new_password request) in
       success <- call (update_user_password (id user) hashed) ;;
       if success : bool then
         logger INFO ("Password reset successful for user: " ++ username user) ;;
         _ <- call (store_reset_token (id user) None None) ;;
         ret reset_success_response
       else raise (Exception "Failed to update password"))
      (fun e =>
         logger ERROR ("Error updating password: " ++ str_exn e) ;;
         raise ResetPersistenceError).

  (** [POST /reset-password] *)
Definition reset_password (request : ResetPasswordRequest) : M Response :=
    try_except
      (if len (token request) <? 32 then raise MalformedToken
       else
         logger INFO "Using demo token validation approach" ;;
         if negb (truthy (reset_email request)) then raise EmailRequired
         else
           user <- resolve_reset_user request ;;
           update_reset_password request user)
      (fun e =>
         match e with
         | HTTPException _ _ => raise e
         | _ =>
             logger ERROR ("Unexpected error in reset_password: " ++ str_exn e) ;;
             raise InternalFailure
         end).

End Endpoints.

(** ** The remaining endpoints of auth.py *)

(** [UserCreate] of [app.schemas.user]: the fields [register_user] reads. *)
Record UserCreate := mkUserCreate {
  uc_username : string;
  uc_email : string;
  uc_password : string
}.

(** [db.query(User).filter(User.username == username).first()] *)
Definition query_user_by_username (un : string) : M (option User) :=
  db_io (fun rows => (inr (find (fun u => (username u =? un)%string) rows), rows)).

(** [db.query(User).filter(User.email == email).first()] *)
Definition query_user_by_email (em : string) : M (option User) :=
  db_io (fun rows => (inr (find (fun u => (email u =? em)%string) rows), rows)).

(** The primary key the store assigns to a new row: larger than every id in
    use. *)
Definition fresh_id (rows : list User) : Z :=
  1 + fold_right Z.max 0 (map id rows).

(** [User(username=..., email=..., hashed_password=...)] with the column
    defaults of the model: active, no failed login, no lock, no reset token. *)
Definition new_user (uid : Z) (un em h : string) : User :=
  mkUser uid un em h true 0 None None None None.

(** [db.add(db_user); db.commit()]: the row is inserted at the commit; the
    store refuses a username or an email that is already there. *)
Definition add_and_commit (un em h : string) : M User :=
  db_io (fun rows =>
           if existsb (fun u => (username u =? un)%string || (email u =? em)%string) rows
           then (inl "IntegrityError", rows)
           else let u := new_user (fresh_id rows) un em h in
                (inr u, (rows ++ [u])%list)).

(** [db.refresh(db_user)]: the row is read back by its primary key. *)
Definition db_refresh (u : User) : M User :=
  db_io (fun rows =>
           match find (fun r => id r =? id u) rows with
           | Some r => (inr r, rows)
           | None => (inl "InvalidRequestError", rows)
           end).

(** A dict-shaped user, as [get_current_active_user] hands it over. *)
Definition Dict := list (string * JSON).

Fixpoint dict_get (d : Dict) (k : string) : option JSON :=
  match d with
  | [] => None
  | (k', v) :: rest => if (k' =? k)%string then Some v else dict_get rest k
  end.

(** [d[k]]: a missing key raises [KeyError(k)], whose [str] is the key in
    quotes. *)
Definition getitem (d : Dict) (k : string) : M JSON :=
  match dict_get d k with
  | Some v => ret v
  | None => raise (Exception ("'" ++ k ++ "'"))
  end.

Section MoreEndpoints.

Context {C : Collaborators}.

(** [POST /register] *)
Definition register_user (user : UserCreate) : M Response :=
  db_user <- query_user_by_username (uc_username user) ;;
  match db_user with
  | Some _ => raise (HTTPException 400 "Username already registered")
  | None =>
      db_email <- query_user_by_email (uc_email user) ;;
      match db_email with
      | Some _ => raise (HTTPException 400 "Email already registered")
      | None =>
          let hashed_password := get_password_hash (uc_password user) in
          db_user <- add_and_commit (uc_username user) (uc_email user) hashed_password ;;
          _ <- db_refresh db_user ;;
          ret [("message", JStr "User created successfully")]
      end
  end.

(** [GET /me] *)
Definition read_users_me (current_user : Dict) : M Response :=
  try_except
    (v_id <- getitem current_user "id" ;;
     v_username <- getitem current_user "username" ;;
     v_email <- getitem current_user "email" ;;
     v_is_active <- getitem current_user "is_active" ;;
     ret [("id", v_id); ("username", v_username);
          ("email", v_email); ("is_active", v_is_active)])
    (fun e =>
       logger ERROR ("Error getting user profile: " ++ str_exn e) ;;
       raise (HTTPException 500
                ("An error occurred while getting the profile: " ++ str_exn e))).

End MoreEndpoints.

(** ** The collaborators as the specification describes them *)

Module SpecStore.

Section Store.

    (** The configured lockout threshold and lockout window, the password
        hasher, the signer of session tokens and the framework's [str]. *)
Variables (threshold lockout_window : Z).
Variable hash : string -> string.
Variable verify : string -> string -> bool.
Variable sign : string -> Z -> string.
Variable str_http : Z -> string -> string.
Variable expire_minutes : Z.

    (** Modelled from the spec: [findByEmail(email) -> User?] of the credential
        store contract (section 6), standing for [db_utils.get_user_by_email],
        which is not among the sources. *)
Definition findByEmail (em : string) (w : World) : (string + option User) * World :=
      (inr (find (fun u => (email u =? em)%string) (users w)), w).

    (** Modelled from the spec: [findByUsername(username) -> User?] of the
        credential store contract (section 6). *)
Definition findByUsername (un : string) (w : World) : option User :=
      find (fun u => (username u =? un)%string) (users w).

    (** A stored reset token is live when it is present with an expiry in the
        future. *)
Definition token_live (tok : string) (now : Z) (u : User) : bool :=
      match reset_token u, reset_token_expires u with
      | Some t, Some e => (t =? tok)%string && (now <? e)
      | _, _ => false
      end.

    (** Modelled from the spec: [findByResetToken(token) -> User?], the lookup
        "by active reset token" of sections 2 and 6, with expiry checked at
        consumption time (section 5), standing for
        [db_utils.get_user_by_reset_token], which is not among the sources. *)
Definition findByResetToken (tok : string) (w : World) : (string + option User) * World :=
      (inr (find (token_live tok (clock w)) (users w)), w).

    (** Modelled from the spec: [updateCredentials(id, {...}) -> success:boolean],
        applied atomically per call (section 6): on a store fault nothing is
        written and the call returns [False]. *)
Definition updateCredentials (uid : Z) (f : User -> User) (w : World)
      : (string + bool) * World :=
      let (fault, w0) := next_fault w in
      if fault then (inr false, w0)
      else (inr true, with_users (update_where_id uid f (users w0)) w0).

    (** Modelled from the spec: [db_utils.update_user_password], not among the
        sources, as [updateCredentials(id, {password_hash})]. *)
Definition updatePassword (uid : Z) (h : string) : World -> (string + bool) * World :=
      updateCredentials uid (set_hashed_password h).

    (** Modelled from the spec: [db_utils.store_reset_token], not among the
        sources, as [updateCredentials(id, {reset_token, reset_token_expires})]. *)
Definition storeResetToken (uid : Z) (tok : option string) (exp : option Z)
      : World -> (string + bool) * World :=
      updateCredentials uid (set_reset tok exp).

Definition locked_at (now : Z) (u : User) : bool :=
      match account_locked_until u with
      | Some t => now <? t
      | None => false
      end.

    (** Modelled from the spec: the authentication algorithm of section 4.2,
        standing for [app.core.auth.authenticate_user], which is not among the
        sources.  An absent user and a wrong password both return [None]
        (the endpoint turns it into [InvalidCredentials]); a locked account
        raises [AccountLocked] with the remaining lock duration.  The lock is
        set when the new count of failures reaches the threshold. *)
Definition authenticate (un pw : string) (w : World) : (exn + option User) * World :=
      match findByUsername un w with
      | None => (inr None, w)
      | Some u =>
          let now := clock w in
          if locked_at now u then
            (inl (AccountLocked (match account_locked_until u with
                                 | Some t => t - now
                                 | None => 0
                                 end)), w)
          else if verify pw (hashed_password u) then
            let u' := set_lockout 0 (last_failed_login u) None u in
            (inr (Some u'),
             with_users (update_where_id (id u)
                           (fun r => set_lockout 0 (last_failed_login r) None r) (users w)) w)
          else
            let n := failed_login_attempts u + 1 in
            (inr None,
             with_users (update_where_id (id u)
                           (fun r => set_lockout n (Some now)
                                       (if threshold <=? n then Some (now + lockout_window)
                                        else account_locked_until r) r) (users w)) w)
      end.

    (** Modelled from the spec: [issueResetToken() -> high-entropy opaque
        string], standing for [secrets.token_urlsafe]: the next token of the
        entropy pool (a fixed token of 43 characters once the pool is
        exhausted). *)
Definition issueResetToken (n : Z) (w : World) : string * World :=
      match entropy w with
      | t :: rest => (t, mkWorld (users w) (clock w) rest (faults w))
      | [] => ("AAAAAAAAAAAAAAAAAAAAAAAAAAAAAAAAAAAAAAAAAAA", w)
      end.

    (** Modelled from the spec: [issueSession(subject) -> token], with a fixed
        lifetime from the time of issue (section 4.3). *)
Definition issueSession (sub : string) (expires_delta : Z) (w : World) : string :=
      sign sub (clock w + expires_delta).

Definition collaborators : Collaborators := {|
      authenticate_user := authenticate;
      create_access_token := issueSession;
      get_password_hash := hash;
      verify_password := verify;
      ACCESS_TOKEN_EXPIRE_MINUTES := expire_minutes;
      get_user_by_email := findByEmail;
      get_user_by_reset_token := findByResetToken;
      update_user_password := updatePassword;
      store_reset_token := storeResetToken;
      token_urlsafe := issueResetToken;
      str_HTTPException := str_http
    |}.

End Store.

End SpecStore.

(** ** A concrete deployment used by the examples *)

Module Demo.

Definition hash (p : string) : string := "hash:" ++ p.
Definition verify (p h : string) : bool := (h =? hash p)%string.
Definition sign (sub : string) (exp : Z) : string := "session:" ++ sub.
Definition str_http (sc : Z) (d : string) : string := d.

  (** Threshold 2, lock window of fifteen minutes, sessions of thirty. *)
#[local] Instance collab : Collaborators :=
    SpecStore.collaborators 2 (timedelta_minutes 15) hash verify sign str_http 30.

Definition TK : string := "tk-0123456789abcdef0123456789abcdef".

Definition alice : User :=
    mkUser 1 "alice" "a@x.com" (hash "P@ss1") true 0 None None None None.

Definition bob : User :=
    mkUser 2 "bob" "b@x.com" (hash "hunter2") true 0 None None None None.

Definition world0 : World := mkWorld [alice; bob] 1000 [TK] [].

(** [alice] holds the live token [TK], issued at time 1000. *)
Definition alice_tk : User :=
  mkUser 1 "alice" "a@x.com" (hash "P@ss1") true 0 None None
         (Some TK) (Some (1000 + timedelta_hours 1)).

Definition world_tk (now : Z) (fs : list bool) : World :=
  mkWorld [alice_tk; bob] now [] fs.

Definition consume : ResetPasswordRequest := mkReset TK "NewP@ss2" "a@x.com".

(** The world once [TK] has expired, and the worlds around the examples. *)
Definition after_expiry : Z := 1000 + timedelta_hours 1 + 1.

Definition alice_new : User :=
  mkUser 1 "alice" "a@x.com" (hash "NewP@ss2") true 0 None None None None.

Definition alice_new_tk : User :=
  mkUser 1 "alice" "a@x.com" (hash "NewP@ss2") true 0 None None
         (Some TK) (Some (1000 + timedelta_hours 1)).

Definition alice_renamed : User :=
  mkUser 1 "alice2" "a2@x.com" (hash "P@ss1") true 0 None None None None.

(** Two wrong passwords in a row, then the right one. *)
Definition two_failures : list (Z * string) := [(2000, "wrong"); (3000, "wrong again")].
Definition then_right : list (Z * string) := [(4000, "P@ss1"); (5000, "P@ss1")].

Definition carol : UserCreate := mkUserCreate "carol" "c@x.com" "S3cret".

Definition carol_row : User :=
  mkUser 3 "carol" "c@x.com" (hash "S3cret") true 0 None None None None.

Definition alice_dict : Dict :=
  [("id", JInt 1); ("username", JStr "alice"); ("email", JStr "a@x.com");
   ("hashed_password", JStr "hash:P@ss1"); ("is_active", JBool true)].

(** The deployment with a store whose token lookup raises, with one whose
    token write raises, and with one that raises when asked to clear a
    token. *)
Definition broken_lookup : Collaborators := {|
  authenticate_user := authenticate_user (Collaborators := collab);
  create_access_token := create_access_token (Collaborators := collab);
  get_password_hash := hash;
  verify_password := verify;
  ACCESS_TOKEN_EXPIRE_MINUTES := 30;
  get_user_by_email := get_user_by_email (Collaborators := collab);
  get_user_by_reset_token := fun _ w => (inl "connection lost", w);
  update_user_password := update_user_password (Collaborators := collab);
  store_reset_token := store_reset_token (Collaborators := collab);
  token_urlsafe := token_urlsafe (Collaborators := collab);
  str_HTTPException := str_http
|}.


Definition broken_clear : Collaborators := {|
  authenticate_user := authenticate_user (Collaborators := collab);
  create_access_token := create_access_token (Collaborators := collab);
  get_password_hash := hash;
  verify_password := verify;
  ACCESS_TOKEN_EXPIRE_MINUTES := 30;
  get_user_by_email := get_user_by_email (Collaborators := collab);
  get_user_by_reset_token := get_user_by_reset_token (Collaborators := collab);
  update_user_password := update_user_password (Collaborators := collab);
  store_reset_token := fun uid tok exp w =>
    match tok with
    | None => (inl "connection lost", w)
    | Some _ => store_reset_token (Collaborators := collab) uid tok exp w
    end;
  token_urlsafe := token_urlsafe (Collaborators := collab);
  str_HTTPException := str_http
|}.

(** A validator that asks for an [@]. *)
Definition has_at (s : string) : bool :=
  existsb (Ascii.eqb "@"%char) (list_ascii_of_string s).

End Demo.

(** The first of the keys [read_users_me] reads that a dict lacks. *)
Definition first_missing (d : Dict) : option string :=
  match dict_get d "id", dict_get d "username", dict_get d "email", dict_get d "is_active" with
  | None, _, _, _ => Some "id"
  | _, None, _, _ => Some "username"
  | _, _, None, _ => Some "email"
  | _, _, _, None => Some "is_active"
  | _, _, _, _ => None
  end.

(** The outcomes [reset_password] and [forgot_password] can have. *)
Definition reset_outcome (o : Outcome Response) : Prop :=
  o = Return reset_success_response
  \/ o = Raise MalformedToken
  \/ o = Raise EmailRequired
  \/ o = Raise InvalidResetRequest
  \/ o = Raise ResetPersistenceError
  \/ o = Raise InternalFailure.

Definition forgot_outcome (o : Outcome Response) : Prop :=
  o = Return generic_reset_response \/ o = Raise InternalFailure.

(** Usernames, emails and primary keys are pairwise distinct. *)
Definition unique_rows (rows : list User) : Prop :=
  NoDup (map id rows) /\ NoDup (map username rows) /\ NoDup (map email rows).

(** ** Notions the properties are stated with *)

Section Notions.

Context {C : Collaborators}.

(** A user is resolved for a reset request: by token, or by the email
    fallback when the token finds nobody (lines 257-262). *)
Inductive resolves (request : ResetPasswordRequest) (w : World) : User -> World -> Prop :=
| resolves_by_token u w1 :
    get_user_by_reset_token (token request) w = (inr (Some u), w1) ->
    resolves request w u w1
| resolves_by_email u w1 w2 :
    get_user_by_reset_token (token request) w = (inr None, w1) ->
    get_user_by_email (reset_email request) w1 = (inr (Some u), w2) ->
    resolves request w u w2.

(** The stored token of [u] cannot back the supplied one at time [now]: it is
    absent, it is another token, or it has expired. *)
Definition stored_token_unusable (tok : string) (now : Z) (u : User) : Prop :=
  reset_token u = None
  \/ reset_token u <> Some tok
  \/ (exists e, reset_token_expires u = Some e /\ e <= now).

(** What the consumption step would do if it rejected every unusable stored
    token: fail with [InvalidResetRequest] and leave the rows alone. *)
Definition rejects_unusable_token (request : ResetPasswordRequest) (w : World) : Prop :=
  forall u w1 l,
    resolves request w u w1 ->
    stored_token_unusable (token request) (clock w) u ->
    fst (reset_password request (w, l)) = Raise InvalidResetRequest
    /\ users (fst (snd (reset_password request (w, l)))) = users w.

(** Single use: once a consumption has succeeded, presenting the same request
    again fails. *)
Definition single_use (request : ResetPasswordRequest) (w : World) : Prop :=
  forall l resp s1,
    reset_password request (w, l) = (Return resp, s1) ->
    exists e s2, reset_password request s1 = (Raise e, s2).

(** One atomic update: after a successful consumption every row of the
    resolved user carries the new hash and no reset token. *)
Definition reset_is_atomic (request : ResetPasswordRequest) (w : World) : Prop :=
  forall l resp w' l' u w1,
    reset_password request (w, l) = (Return resp, (w', l')) ->
    resolves request w u w1 ->
    forall u', In u' (users w') -> id u' = id u ->
      hashed_password u' = get_password_hash (new_password request)
      /\ reset_token u' = None /\ reset_token_expires u' = None.




(** A series of login attempts for one username, each made at its own time:
    the outcomes in order and the world left behind. *)
Fixpoint run_logins (un : string) (attempts : list (Z * string)) (w : World)
  : list (Outcome Response) * World :=
  match attempts with
  | [] => ([], w)
  | (t, pw) :: rest =>
      let '(o, (w1, _)) := login_for_access_token (mkForm un pw) (with_clock t w, []) in
      let (os, w2) := run_logins un rest w1 in
      (o :: os, w2)
  end.

End Notions.

(** The log once [reset_password] has passed the length guard. *)
Definition demo_log (l : list LogRecord) : list LogRecord :=
  (l ++ [(INFO, "Using demo token validation approach")])%list.

(** The status FastAPI answers with for an outcome. *)
Definition status_of {A} (o : Outcome A) : Z :=
  match o with
  | Return _ => 200
  | Raise (HTTPException sc _) => sc
  | Raise _ => 500
  end.

(** ** The request schema of [reset_password] *)

Section Schema.

(** pydantic's [EmailStr] validator, of which only this is used: it refuses
    the empty string. *)
Variable EmailStr : string -> bool.

(** [ResetPasswordRequest] declares [email: EmailStr] without a default: a
    request reaches the endpoint only with an email the validator accepts. *)
Definition accepted_by_schema (request : ResetPasswordRequest) : Prop :=
  EmailStr (reset_email request) = true.

End Schema.

(** ** Reasoning about endpoint computations *)

Lemma bind_Return {A B} (m : M A) (k : A -> M B) s a s1 :
  m s = (Return a, s1) -> bind m k s = k a s1.
Proof. intros H. unfold bind. rewrite H. reflexivity. Qed.

Lemma bind_Raise {A B} (m : M A) (k : A -> M B) s e s1 :
  m s = (Raise e, s1) -> bind m k s = (Raise e, s1).
Proof. intros H. unfold bind. rewrite H. reflexivity. Qed.

Lemma bind_inv_Return {A B} (m : M A) (k : A -> M B) s b s2 :
  bind m k s = (Return b, s2) ->
  exists a s1, m s = (Return a, s1) /\ k a s1 = (Return b, s2).
Proof.
  unfold bind. destruct (m s) as [[a | e] s1]; intros H.
  - exists a, s1. split; [reflexivity | exact H].
  - discriminate H.
Qed.

Lemma try_except_Return {A} (m : M A) h s a s1 :
  m s = (Return a, s1) -> try_except m h s = (Return a, s1).
Proof. intros H. unfold try_except. rewrite H. reflexivity. Qed.

Lemma try_except_Raise {A} (m : M A) h s e s1 :
  m s = (Raise e, s1) -> try_except m h s = h e s1.
Proof. intros H. unfold try_except. rewrite H. reflexivity. Qed.

(** A handler that always raises lets only the results of the body through. *)
Lemma try_except_inv_Return {A} (m : M A) h s a s2 :
  (forall e s1, exists e', exists s1', h e s1 = (Raise e', s1')) ->
  try_except m h s = (Return a, s2) -> m s = (Return a, s2).
Proof.
  intros Hh. unfold try_except. destruct (m s) as [[a0 | e] s1]; intros H.
  - exact H.
  - destruct (Hh e s1) as [e' [s1' He]]. rewrite He in H. discriminate H.
Qed.

Lemma logger_run lv msg w l :
  logger lv msg (w, l) = (Return tt, (w, (l ++ [(lv, msg)])%list)).
Proof. reflexivity. Qed.

Lemma call_Return {A} (f : World -> (string + A) * World) w l a w1 :
  f w = (inr a, w1) -> call f (w, l) = (Return a, (w1, l)).
Proof. intros H. unfold call. rewrite H. reflexivity. Qed.

Lemma call_Raise {A} (f : World -> (string + A) * World) w l msg w1 :
  f w = (inl msg, w1) -> call f (w, l) = (Raise (Exception msg), (w1, l)).
Proof. intros H. unfold call. rewrite H. reflexivity. Qed.

Lemma call_total_run {A} (f : World -> A * World) w l a w1 :
  f w = (a, w1) -> call_total f (w, l) = (Return a, (w1, l)).
Proof. intros H. unfold call_total. rewrite H. reflexivity. Qed.

Lemma next_fault_users w : users (snd (next_fault w)) = users w.
Proof. unfold next_fault. destruct (faults w); reflexivity. Qed.

Lemma next_fault_clock w : clock (snd (next_fault w)) = clock w.
Proof. unfold next_fault. destruct (faults w); reflexivity. Qed.

Lemma db_io_inv_Return {A} (op : list User -> (string + A) * list User) w l a w1 l1 :
  db_io op (w, l) = (Return a, (w1, l1)) ->
  op (users w) = (inr a, users w1) /\ l1 = l /\ clock w1 = clock w.
Proof.
  unfold db_io. pose proof (next_fault_users w) as Hu.
  pose proof (next_fault_clock w) as Hc.
  destruct (next_fault w) as [fault w0]. simpl in Hu, Hc.
  destruct fault; [discriminate |].
  rewrite Hu. destruct (op (users w)) as [[msg | a0] rows]; intros H.
  - discriminate H.
  - injection H as -> <- <-. simpl. auto.
Qed.

Lemma truthy_nonempty s : truthy s = true <-> s <> "".
Proof.
  unfold truthy. rewrite negb_true_iff. split.
  - intros H ->. rewrite String.eqb_refl in H. discriminate.
  - intros H. apply String.eqb_neq. exact H.
Qed.

Lemma update_where_id_nth uid f rows n :
  nth_error (update_where_id uid f rows) n
  = option_map (fun u => if id u =? uid then f u else u) (nth_error rows n).
Proof. unfold update_where_id. apply nth_error_map. Qed.

(** ** Password-reset consumption: the malformed-token guard *)

Section ResetGuards.

Context {C : Collaborators}.

  (** C8: a password-reset consumption call whose token is shorter than 32
      characters is rejected with [MalformedToken] (400, "Invalid token
      format"), whatever the collaborators are: the world and the log are
      returned as they were, so no lookup and no write took place. *)
Theorem reset_password_short_token_malformed :
    forall (request : ResetPasswordRequest) (w : World) (l : list LogRecord),
      len (token request) < 32 ->
      reset_password request (w, l) = (Raise MalformedToken, (w, l)).
  Proof.
    intros request w l Hlen.
    unfold reset_password, try_except.
    apply Z.ltb_lt in Hlen. rewrite Hlen. reflexivity.
  Qed.

End ResetGuards.

Lemma reset_password_short_token_malformed_witness :
  len (token (mkReset "short-token" "NewP@ss2" "a@x.com")) < 32
  /\ reset_password (C := Demo.collab) (mkReset "short-token" "NewP@ss2" "a@x.com")
       (Demo.world0, [])
     = (Raise MalformedToken, (Demo.world0, [])).
Proof.
  split.
  - reflexivity.
  - apply (reset_password_short_token_malformed (C := Demo.collab)). reflexivity.
Defined.

(** ** Password-reset consumption: the paths of [reset_password] *)

Section ResetPaths.

Context {C : Collaborators}.

Lemma resolve_reset_user_resolves request w l u w1 :
  resolves request w u w1 ->
  resolve_reset_user request (w, l) = (Return u, (w1, l)).
Proof.
  intros H. unfold resolve_reset_user. destruct H as [u w1 Ht | u w1 w2 Ht He].
  - rewrite (bind_Return _ _ _ _ _ (call_Return _ _ l _ _ Ht)). reflexivity.
  - rewrite (bind_Return _ _ _ _ _ (call_Return _ _ l _ _ Ht)).
    rewrite (bind_Return _ _ _ _ _ (call_Return _ _ l _ _ He)). reflexivity.
Qed.

Lemma resolve_reset_user_nobody request w l w1 w2 :
  get_user_by_reset_token (token request) w = (inr None, w1) ->
  get_user_by_email (reset_email request) w1 = (inr None, w2) ->
  resolve_reset_user request (w, l)
  = (Raise InvalidResetRequest,
     (w2, (l ++ [(WARNING, ("Reset password attempt for non-existent email: "
                           ++ reset_email request)%string)])%list)).
Proof.
  intros Ht He. unfold resolve_reset_user.
  rewrite (bind_Return _ _ _ _ _ (call_Return _ _ l _ _ Ht)).
  rewrite (bind_Return _ _ _ _ _ (call_Return _ _ l _ _ He)).
  reflexivity.
Qed.

Lemma update_reset_password_written request u w l w1 b w2 :
  update_user_password (id u) (get_password_hash (new_password request)) w = (inr true, w1) ->
  store_reset_token (id u) None None w1 = (inr b, w2) ->
  update_reset_password request u (w, l)
  = (Return reset_success_response,
     (w2, (l ++ [(INFO, ("Password reset successful for user: " ++ username u)%string)])%list)).
Proof.
  intros Hu Hs. unfold update_reset_password.
  apply try_except_Return.
  rewrite (bind_Return _ _ _ _ _ (call_Return _ _ l _ _ Hu)).
  rewrite (bind_Return _ _ _ _ _ (logger_run _ _ _ _)).
  rewrite (bind_Return _ _ _ _ _ (call_Return _ _ _ _ _ Hs)).
  reflexivity.
Qed.

Lemma update_reset_password_refused request u w l w1 :
  update_user_password (id u) (get_password_hash (new_password request)) w = (inr false, w1) ->
  update_reset_password request u (w, l)
  = (Raise ResetPersistenceError,
     (w1, (l ++ [(ERROR, "Error updating password: Failed to update password")])%list)).
Proof.
  intros Hu. unfold update_reset_password.
  erewrite try_except_Raise.
  2: { rewrite (bind_Return _ _ _ _ _ (call_Return _ _ l _ _ Hu)). reflexivity. }
  reflexivity.
Qed.

Lemma update_reset_password_raised request u w l msg w1 :
  update_user_password (id u) (get_password_hash (new_password request)) w = (inl msg, w1) ->
  update_reset_password request u (w, l)
  = (Raise ResetPersistenceError,
     (w1, (l ++ [(ERROR, ("Error updating password: " ++ msg)%string)])%list)).
Proof.
  intros Hu. unfold update_reset_password.
  erewrite try_except_Raise.
  2: { apply bind_Raise. apply (call_Raise _ _ l _ _ Hu). }
  reflexivity.
Qed.

(** Past the two guards, [reset_password] is the lookup followed by the
    write, with [HTTPException]s let through. *)
Lemma reset_password_past_guards request w l :
  32 <= len (token request) ->
  truthy (reset_email request) = true ->
  reset_password request (w, l)
  = try_except
      (user <- resolve_reset_user request ;; update_reset_password request user)
      (fun e =>
         match e with
         | HTTPException _ _ => raise e
         | _ =>
             logger ERROR ("Unexpected error in reset_password: " ++ str_exn e) ;;
             raise InternalFailure
         end)
      (w, (l ++ [(INFO, "Using demo token validation approach")])%list).
Proof.
  intros Hlen Hem. unfold reset_password, try_except.
  assert (Hl : (len (token request) <? 32) = false) by (apply Z.ltb_ge; exact Hlen).
  rewrite Hl, Hem. reflexivity.
Qed.

Lemma reset_password_accepts request w l u w1 w2 b w3 :
  32 <= len (token request) ->
  truthy (reset_email request) = true ->
  resolves request w u w1 ->
  update_user_password (id u) (get_password_hash (new_password request)) w1 = (inr true, w2) ->
  store_reset_token (id u) None None w2 = (inr b, w3) ->
  reset_password request (w, l)
  = (Return reset_success_response,
     (w3, (demo_log l ++ [(INFO, ("Password reset successful for user: " ++ username u)%string)])%list)).
Proof.
  intros Hlen Hem Hres Hu Hs.
  rewrite (reset_password_past_guards _ _ _ Hlen Hem).
  apply try_except_Return.
  rewrite (bind_Return _ _ _ _ _ (resolve_reset_user_resolves _ _ _ _ _ Hres)).
  apply (update_reset_password_written _ _ _ _ _ _ _ Hu Hs).
Qed.

Lemma reset_password_nobody request w l w1 w2 :
  32 <= len (token request) ->
  truthy (reset_email request) = true ->
  get_user_by_reset_token (token request) w = (inr None, w1) ->
  get_user_by_email (reset_email request) w1 = (inr None, w2) ->
  reset_password request (w, l)
  = (Raise InvalidResetRequest,
     (w2, (demo_log l ++ [(WARNING, ("Reset password attempt for non-existent email: "
                                    ++ reset_email request)%string)])%list)).
Proof.
  intros Hlen Hem Ht He.
  rewrite (reset_password_past_guards _ _ _ Hlen Hem).
  erewrite try_except_Raise.
  2: { apply bind_Raise. apply (resolve_reset_user_nobody _ _ _ _ _ Ht He). }
  reflexivity.
Qed.

Lemma reset_password_write_refused request w l u w1 w2 :
  32 <= len (token request) ->
  truthy (reset_email request) = true ->
  resolves request w u w1 ->
  update_user_password (id u) (get_password_hash (new_password request)) w1 = (inr false, w2) ->
  reset_password request (w, l)
  = (Raise ResetPersistenceError,
     (w2, (demo_log l ++ [(ERROR, "Error updating password: Failed to update password")])%list)).
Proof.
  intros Hlen Hem Hres Hu.
  rewrite (reset_password_past_guards _ _ _ Hlen Hem).
  erewrite try_except_Raise.
  2: { rewrite (bind_Return _ _ _ _ _ (resolve_reset_user_resolves _ _ _ _ _ Hres)).
       apply (update_reset_password_refused _ _ _ _ _ Hu). }
  reflexivity.
Qed.

Lemma reset_password_write_raised request w l u w1 msg w2 :
  32 <= len (token request) ->
  truthy (reset_email request) = true ->
  resolves request w u w1 ->
  update_user_password (id u) (get_password_hash (new_password request)) w1 = (inl msg, w2) ->
  reset_password request (w, l)
  = (Raise ResetPersistenceError,
     (w2, (demo_log l ++ [(ERROR, ("Error updating password: " ++ msg)%string)])%list)).
Proof.
  intros Hlen Hem Hres Hu.
  rewrite (reset_password_past_guards _ _ _ Hlen Hem).
  erewrite try_except_Raise.
  2: { rewrite (bind_Return _ _ _ _ _ (resolve_reset_user_resolves _ _ _ _ _ Hres)).
       apply (update_reset_password_raised _ _ _ _ _ _ Hu). }
  reflexivity.
Qed.

(** The only way to [EmailRequired] is the guard on the email. *)
Lemma reset_password_EmailRequired_only_from_guard request s :
  fst (reset_password request s) = Raise EmailRequired ->
  truthy (reset_email request) = false.
Proof.
  destruct s as [w l].
  destruct (truthy (reset_email request)) eqn:Hem; [| reflexivity].
  intros H. exfalso. revert H.
  unfold reset_password, try_except.
  destruct (len (token request) <? 32); [discriminate |].
  rewrite Hem. cbn [negb].
  unfold bind at 1. rewrite logger_run.
  unfold resolve_reset_user, update_reset_password, try_except, bind, call, logger, raise, ret.
  repeat match goal with
         | |- context [match ?f ?a ?x with _ => _ end] =>
             match type of (f a x) with
             | (_ * World)%type => destruct (f a x) as [[?|?] ?]
             end
         | |- context [match ?f ?a ?b ?x with _ => _ end] =>
             match type of (f a b x) with
             | (_ * World)%type => destruct (f a b x) as [[?|?] ?]
             end
         | |- context [match ?f ?a ?b ?c ?x with _ => _ end] =>
             match type of (f a b c x) with
             | (_ * World)%type => destruct (f a b c x) as [[?|?] ?]
             end
         | |- context [match ?o with Some _ => _ | None => _ end] => destruct o
         | |- context [if ?b then _ else _] => destruct b
         | _ => progress cbn
         end; discriminate.
Qed.

End ResetPaths.

(** ** Password-reset consumption: what the stored token decides *)

Section ResetProperties.

Context {C : Collaborators}.

(** C1 (amended): a consumption call with a well-formed token and an email
    fails with [InvalidResetRequest], before any write, exactly when neither
    the token lookup nor the email fallback resolves a user.  As soon as a
    user is resolved, by token or by email, nothing of that user's stored
    token or expiry is compared with the request: the call succeeds whenever
    the password write succeeds and the call that clears the token returns,
    with either result.  The endpoint has no failure of its own for an
    expired token. *)
Theorem reset_password_checks_resolution_only :
  forall (request : ResetPasswordRequest) (w : World) (l : list LogRecord),
    32 <= len (token request) ->
    truthy (reset_email request) = true ->
    (forall u w1 w2 b w3,
        resolves request w u w1 ->
        update_user_password (id u) (get_password_hash (new_password request)) w1
        = (inr true, w2) ->
        store_reset_token (id u) None None w2 = (inr b, w3) ->
        reset_password request (w, l)
        = (Return reset_success_response,
           (w3, (demo_log l ++ [(INFO, ("Password reset successful for user: "
                                        ++ username u)%string)])%list)))
    /\ (forall w1 w2,
           get_user_by_reset_token (token request) w = (inr None, w1) ->
           get_user_by_email (reset_email request) w1 = (inr None, w2) ->
           reset_password request (w, l)
           = (Raise InvalidResetRequest,
              (w2, (demo_log l ++ [(WARNING, ("Reset password attempt for non-existent email: "
                                              ++ reset_email request)%string)])%list))).
Proof.
  intros request w l Hlen Hem. split.
  - intros u w1 w2 b w3 Hres Hu Hs.
    exact (reset_password_accepts _ _ _ _ _ _ _ _ Hlen Hem Hres Hu Hs).
  - intros w1 w2 Ht He.
    exact (reset_password_nobody _ _ _ _ _ Hlen Hem Ht He).
Qed.

(** C4 (amended): once a user is resolved, the new hash is written by
    [update_user_password] alone; clearing the token is a second store call,
    made only after that write succeeded, and its result is not looked at.
    When the password write returns [False] or raises, the call fails with
    [ResetPersistenceError] and the world is the one that write left: the
    clearing call is never made. *)
Theorem reset_password_writes_then_clears :
  forall (request : ResetPasswordRequest) (w : World) (l : list LogRecord) u w1,
    32 <= len (token request) ->
    truthy (reset_email request) = true ->
    resolves request w u w1 ->
    (forall w2 b w3,
        update_user_password (id u) (get_password_hash (new_password request)) w1
        = (inr true, w2) ->
        store_reset_token (id u) None None w2 = (inr b, w3) ->
        fst (reset_password request (w, l)) = Return reset_success_response
        /\ fst (snd (reset_password request (w, l))) = w3)
    /\ (forall w2,
           update_user_password (id u) (get_password_hash (new_password request)) w1
           = (inr false, w2) ->
           fst (reset_password request (w, l)) = Raise ResetPersistenceError
           /\ fst (snd (reset_password request (w, l))) = w2)
    /\ (forall msg w2,
           update_user_password (id u) (get_password_hash (new_password request)) w1
           = (inl msg, w2) ->
           fst (reset_password request (w, l)) = Raise ResetPersistenceError
           /\ fst (snd (reset_password request (w, l))) = w2).
Proof.
  intros request w l u w1 Hlen Hem Hres. repeat split.
  - rewrite (reset_password_accepts _ _ _ _ _ _ _ _ Hlen Hem Hres H H0). reflexivity.
  - rewrite (reset_password_accepts _ _ _ _ _ _ _ _ Hlen Hem Hres H H0). reflexivity.
  - rewrite (reset_password_write_refused _ _ _ _ _ _ Hlen Hem Hres H). reflexivity.
  - rewrite (reset_password_write_refused _ _ _ _ _ _ Hlen Hem Hres H). reflexivity.
  - rewrite (reset_password_write_raised _ _ _ _ _ _ _ Hlen Hem Hres H). reflexivity.
  - rewrite (reset_password_write_raised _ _ _ _ _ _ _ Hlen Hem Hres H). reflexivity.
Qed.

End ResetProperties.

(** ** The request schema keeps the email guard from firing *)

Section EmailGuard.

Context {C : Collaborators}.
Variable EmailStr : string -> bool.
Hypothesis EmailStr_refuses_empty : EmailStr "" = false.

(** C10: a request the schema accepted carries a non-empty email, so the
    guard [if not request.email] is false and [reset_password] never fails
    with "Please provide your email along with the token". *)
Theorem reset_password_email_guard_dead :
  forall (request : ResetPasswordRequest) (s : State),
    accepted_by_schema EmailStr request ->
    negb (truthy (reset_email request)) = false
    /\ fst (reset_password request s) <> Raise EmailRequired.
Proof.
  intros request s Hacc.
  assert (Hem : truthy (reset_email request) = true).
  { apply truthy_nonempty. intros Heq. unfold accepted_by_schema in Hacc.
    rewrite Heq, EmailStr_refuses_empty in Hacc. discriminate Hacc. }
  split.
  - rewrite Hem. reflexivity.
  - intros H. apply reset_password_EmailRequired_only_from_guard in H.
    rewrite Hem in H. discriminate H.
Qed.

End EmailGuard.

(** ** Password-reset issuance *)

Section Issuance.

Context {C : Collaborators}.

Lemma forgot_password_unregistered request w l w1 :
  get_user_by_email (forgot_email request) w = (inr None, w1) ->
  forgot_password request (w, l)
  = (Return generic_reset_response,
     (w1, (l ++ [(INFO, ("Forgot password request for non-existent email: "
                         ++ forgot_email request)%string)])%list)).
Proof.
  intros He. unfold forgot_password. apply try_except_Return.
  rewrite (bind_Return _ _ _ _ _ (call_Return _ _ l _ _ He)). reflexivity.
Qed.

Lemma forgot_password_registered request w l u w1 tok w2 b w3 :
  get_user_by_email (forgot_email request) w = (inr (Some u), w1) ->
  token_urlsafe 32 w1 = (tok, w2) ->
  store_reset_token (id u) (Some tok) (Some (clock w2 + timedelta_hours 1)) w2 = (inr b, w3) ->
  forgot_password request (w, l)
  = (Return generic_reset_response,
     (w3, (l ++ [(INFO, ("Password reset requested for user: " ++ username u)%string);
                 (INFO, ("Reset token generated: " ++ tok)%string);
                 if b then (INFO, "Token stored in database")
                 else (WARNING,
                       "Token could not be stored in database - it will only be logged")])%list)).
Proof.
  intros He Ht Hs. unfold forgot_password. apply try_except_Return.
  rewrite (bind_Return _ _ _ _ _ (call_Return _ _ l _ _ He)).
  rewrite (bind_Return _ _ _ _ _ (call_total_run _ _ l _ _ Ht)).
  rewrite (bind_Return _ _ _ _ _ (logger_run _ _ _ _)).
  rewrite (bind_Return _ _ _ _ _ (logger_run _ _ _ _)).
  unfold bind at 1. unfold datetime_now.
  rewrite (bind_Return _ _ _ _ _ (call_Return _ _ _ _ _ Hs)).
  destruct b; unfold bind, logger, ret; rewrite <- !app_assoc; reflexivity.
Qed.




End Issuance.

(** ** Password change *)

Section PasswordChangeErrors.

Context {C : Collaborators}.

(** C6 (what the code does): a password-change call whose current password
    does not verify leaves the world as it was, but the [IncorrectPassword]
    it raises is caught by the endpoint's own [except Exception] and leaves
    as a 500 whose detail wraps it: the caller is answered with the status of
    an internal failure, not with the 400 of [IncorrectPassword]. *)
Theorem change_password_wrong_current_answers_500 :
  forall (password_change : PasswordChange) (current_user : User)
         (w : World) (l : list LogRecord),
    verify_password (current_password password_change) (hashed_password current_user) = false ->
    change_password password_change current_user (w, l)
    = (Raise (HTTPException 500
                ("An error occurred while changing the password: "
                 ++ str_HTTPException 400 "Incorrect current password")),
       (w, (l ++ [(ERROR, ("Error changing password: "
                           ++ str_HTTPException 400 "Incorrect current password")%string)])%list))
    /\ fst (change_password password_change current_user (w, l)) <> Raise IncorrectPassword
    /\ status_of (fst (change_password password_change current_user (w, l))) = 500.
Proof.
  intros password_change current_user w l Hv.
  assert (E : change_password password_change current_user (w, l)
              = (Raise (HTTPException 500
                          ("An error occurred while changing the password: "
                           ++ str_HTTPException 400 "Incorrect current password")),
                 (w, (l ++ [(ERROR, ("Error changing password: "
                           ++ str_HTTPException 400 "Incorrect current password")%string)])%list))).
  { unfold change_password, try_except. rewrite Hv. reflexivity. }
  rewrite E. repeat split.
  - discriminate.
Qed.

(** A store fault during a password change with the right current password
    is answered with the same status. *)
Lemma change_password_store_fault_answers_500 password_change current_user w l fs :
  verify_password (current_password password_change) (hashed_password current_user) = true ->
  faults w = true :: fs ->
  status_of (fst (change_password password_change current_user (w, l))) = 500.
Proof.
  intros Hv Hf. unfold change_password, try_except. rewrite Hv. cbn [negb].
  unfold update_password_sql, bind, db_io, next_fault. rewrite Hf. reflexivity.
Qed.

End PasswordChangeErrors.

(** ** Profile update *)

Section ProfileUpdate.

Context {C : Collaborators}.

Lemma select_id_by_username_users un w l r w1 l1 :
  select_id_by_username un (w, l) = (Return r, (w1, l1)) -> users w1 = users w /\ l1 = l.
Proof.
  intros H. apply db_io_inv_Return in H. destruct H as [H [Hl _]].
  injection H as _ Hu. auto.
Qed.

Lemma select_id_by_email_users em w l r w1 l1 :
  select_id_by_email em (w, l) = (Return r, (w1, l1)) -> users w1 = users w /\ l1 = l.
Proof.
  intros H. apply db_io_inv_Return in H. destruct H as [H [Hl _]].
  injection H as _ Hu. auto.
Qed.

Lemma update_profile_sql_users un em uid w l w1 l1 :
  update_profile_sql un em uid (w, l) = (Return tt, (w1, l1)) ->
  users w1 = update_where_id uid (set_profile un em) (users w) /\ l1 = l.
Proof.
  intros H. apply db_io_inv_Return in H. destruct H as [H [Hl _]].
  destruct (violates_unique uid un em (users w)); [discriminate H |].
  injection H as Hu. auto.
Qed.

Lemma db_commit_users w l w1 l1 :
  db_commit (w, l) = (Return tt, (w1, l1)) -> users w1 = users w /\ l1 = l.
Proof.
  intros H. apply db_io_inv_Return in H. destruct H as [H [Hl _]].
  injection H as Hu. auto.
Qed.

(** A successful profile update leaves the table as the one [UPDATE]
    statement of the endpoint makes it. *)
Lemma update_user_profile_rows user_update current_user w l resp w' l' :
  update_user_profile user_update current_user (w, l) = (Return resp, (w', l')) ->
  users w' = update_where_id (id current_user)
               (set_profile (upd_username user_update) (upd_email user_update)) (users w).
Proof.
  intros H. unfold update_user_profile in H.
  apply try_except_inv_Return in H.
  2: { intros e [w1 l1]. eexists. eexists. reflexivity. }
  apply bind_inv_Return in H. destruct H as [[] [[wa la] [Ha H]]].
  apply bind_inv_Return in H. destruct H as [[] [[wb lb] [Hb H]]].
  apply bind_inv_Return in H. destruct H as [[] [[wc lc] [Hc H]]].
  apply bind_inv_Return in H. destruct H as [[] [[wd ld] [Hd H]]].
  injection H as _ Hw _.
  assert (Ua : users wa = users w).
  { destruct (negb (upd_username user_update =? username current_user)%string).
    - apply bind_inv_Return in Ha. destruct Ha as [r [[wx lx] [Hs Hk]]].
      apply select_id_by_username_users in Hs. destruct Hs as [Hs _].
      destruct r; [discriminate Hk |]. injection Hk as Hk _. congruence.
    - injection Ha as Ha _. congruence. }
  assert (Ub : users wb = users wa).
  { destruct (negb (upd_email user_update =? email current_user)%string).
    - apply bind_inv_Return in Hb. destruct Hb as [r [[wx lx] [Hs Hk]]].
      apply select_id_by_email_users in Hs. destruct Hs as [Hs _].
      destruct r; [discriminate Hk |]. injection Hk as Hk _. congruence.
    - injection Hb as Hb _. congruence. }
  apply update_profile_sql_users in Hc. destruct Hc as [Hc _].
  apply db_commit_users in Hd. destruct Hd as [Hd _].
  subst w'. rewrite Hd, Hc, Ub, Ua. reflexivity.
Qed.

(** C9: after a successful profile update the table has the same rows in the
    same order; the rows of the caller's id differ from before in [username]
    and [email] only, and every other row is untouched. *)
Theorem update_user_profile_frame :
  forall (user_update : UserUpdate) (current_user : User)
         (w : World) (l : list LogRecord) resp (w' : World) (l' : list LogRecord),
    update_user_profile user_update current_user (w, l) = (Return resp, (w', l')) ->
    length (users w') = length (users w)
    /\ forall n u', nth_error (users w') n = Some u' ->
         exists u, nth_error (users w) n = Some u
           /\ id u' = id u
           /\ hashed_password u' = hashed_password u
           /\ is_active u' = is_active u
           /\ failed_login_attempts u' = failed_login_attempts u
           /\ last_failed_login u' = last_failed_login u
           /\ account_locked_until u' = account_locked_until u
           /\ reset_token u' = reset_token u
           /\ reset_token_expires u' = reset_token_expires u
           /\ (id u <> id current_user -> u' = u)
           /\ (id u = id current_user ->
               username u' = upd_username user_update /\ email u' = upd_email user_update).
Proof.
  intros user_update current_user w l resp w' l' H.
  apply update_user_profile_rows in H. rewrite H. split.
  - unfold update_where_id. apply length_map.
  - intros n u' Hn. rewrite update_where_id_nth in Hn.
    destruct (nth_error (users w) n) as [u |]; [| discriminate Hn].
    exists u. split; [reflexivity |].
    cbn in Hn. injection Hn as Hn.
    destruct (id u =? id current_user) eqn:E; subst u'.
    + apply Z.eqb_eq in E. cbn.
      do 8 (split; [reflexivity |]). split.
      * intros Hne. contradiction.
      * intros _. split; reflexivity.
    + apply Z.eqb_neq in E.
      do 8 (split; [reflexivity |]). split.
      * intros _. reflexivity.
      * intros Heq. contradiction.
Qed.

End ProfileUpdate.

(** ** The store of the specification under the endpoints *)

Lemma find_update_where_id (p : User -> bool) uid f rows :
  (forall u, p (f u) = p u) ->
  find p (update_where_id uid f rows)
  = option_map (fun u => if id u =? uid then f u else u) (find p rows).
Proof.
  intros Hp. induction rows as [| r rows IH]; [reflexivity |].
  cbn. destruct (id r =? uid) eqn:E.
  - rewrite Hp. destruct (p r); [cbn; rewrite E; reflexivity | exact IH].
  - destruct (p r); [cbn; rewrite E; reflexivity | exact IH].
Qed.

Lemma next_fault_none w : faults w = [] -> next_fault w = (false, w).
Proof. intros H. unfold next_fault. rewrite H. reflexivity. Qed.

Section OverSpecStore.

Variables (threshold lockout_window : Z).
Variable hash : string -> string.
Variable verify : string -> string -> bool.
Variable sign : string -> Z -> string.
Variable str_http : Z -> string -> string.
Variable expire_minutes : Z.

Let spec_store : Collaborators :=
  SpecStore.collaborators threshold lockout_window hash verify sign str_http expire_minutes.
#[local] Existing Instance spec_store.

Lemma updateCredentials_no_fault uid f w :
  faults w = [] ->
  SpecStore.updateCredentials uid f w
  = (inr true, with_users (update_where_id uid f (users w)) w).
Proof.
  intros Hf. unfold SpecStore.updateCredentials. rewrite (next_fault_none _ Hf). reflexivity.
Qed.

(** With no store fault pending, a well-formed request whose email belongs to
    some user is accepted, and leaves a world of the same kind. *)
Lemma reset_password_accepted_by_email request w l u :
  32 <= len (token request) ->
  truthy (reset_email request) = true ->
  find (fun r => (email r =? reset_email request)%string) (users w) = Some u ->
  faults w = [] ->
  exists w1 l1 u1,
    reset_password request (w, l) = (Return reset_success_response, (w1, l1))
    /\ find (fun r => (email r =? reset_email request)%string) (users w1) = Some u1
    /\ faults w1 = [].
Proof.
  intros Hlen Hem Hfind Hf.
  assert (Hres : exists v, resolves request w v w).
  { destruct (find (SpecStore.token_live (token request) (clock w)) (users w)) as [v |] eqn:Ht.
    - exists v. apply resolves_by_token. cbn. unfold SpecStore.findByResetToken.
      rewrite Ht. reflexivity.
    - exists u. apply resolves_by_email with (w1 := w).
      + cbn. unfold SpecStore.findByResetToken. rewrite Ht. reflexivity.
      + cbn. unfold SpecStore.findByEmail. rewrite Hfind. reflexivity. }
  destruct Hres as [v Hres].
  set (w2 := with_users (update_where_id (id v)
                (set_hashed_password (hash (new_password request))) (users w)) w).
  set (w3 := with_users (update_where_id (id v) (set_reset None None) (users w2)) w2).
  assert (Hu : update_user_password (id v) (get_password_hash (new_password request)) w
               = (inr true, w2)).
  { cbn. unfold SpecStore.updatePassword. apply updateCredentials_no_fault. exact Hf. }
  assert (Hs : store_reset_token (id v) None None w2 = (inr true, w3)).
  { cbn. unfold SpecStore.storeResetToken. apply updateCredentials_no_fault. exact Hf. }
  eexists w3, _.
  assert (Hfind3 : exists u1,
             find (fun r => (email r =? reset_email request)%string) (users w3) = Some u1).
  { unfold w3, w2. cbn [users with_users].
    rewrite !find_update_where_id by reflexivity. rewrite Hfind. cbn. eexists. reflexivity. }
  destruct Hfind3 as [u1 Hfind3]. exists u1. split; [| split].
  - exact (reset_password_accepts _ _ _ _ _ _ _ _ Hlen Hem Hres Hu Hs).
  - exact Hfind3.
  - exact Hf.
Qed.

(** C2 (amended): with the store answering its writes, a consumption call
    that carries a well-formed token and the email of a user succeeds, and the
    same request presented again, at any later time, succeeds again: the
    email fallback resolves the user whose token the first call cleared.
    Nothing in the endpoint makes a token single-use. *)
Theorem reset_password_succeeds_again :
  forall (request : ResetPasswordRequest) (w : World) (l : list LogRecord) u (t : Z),
    32 <= len (token request) ->
    truthy (reset_email request) = true ->
    find (fun r => (email r =? reset_email request)%string) (users w) = Some u ->
    faults w = [] ->
    exists w1 l1 w2 l2,
      reset_password request (w, l) = (Return reset_success_response, (w1, l1))
      /\ reset_password request (with_clock t w1, l1)
         = (Return reset_success_response, (w2, l2)).
Proof.
  intros request w l u t Hlen Hem Hfind Hf.
  destruct (reset_password_accepted_by_email request w l u Hlen Hem Hfind Hf)
    as [w1 [l1 [u1 [H1 [Hfind1 Hf1]]]]].
  destruct (reset_password_accepted_by_email request (with_clock t w1) l1 u1 Hlen Hem Hfind1 Hf1)
    as [w2 [l2 [u2 [H2 _]]]].
  exists w1, l1, w2, l2. split; assumption.
Qed.

(** *** Lockout *)

Lemma findByUsername_with_clock un t w :
  SpecStore.findByUsername un (with_clock t w) = SpecStore.findByUsername un w.
Proof. reflexivity. Qed.

Lemma login_locked un pw w l u T :
  SpecStore.findByUsername un w = Some u ->
  account_locked_until u = Some T ->
  clock w < T ->
  login_for_access_token (mkForm un pw) (w, l) = (Raise (AccountLocked (T - clock w)), (w, l)).
Proof.
  intros Hf HT Hlt. unfold login_for_access_token, bind, call_exn. cbn.
  unfold SpecStore.authenticate. rewrite Hf. unfold SpecStore.locked_at. rewrite HT.
  apply Z.ltb_lt in Hlt. rewrite Hlt. reflexivity.
Qed.

(** The row of [u] after one more failure at time [now]. *)
Lemma login_wrong un pw w l u :
  SpecStore.findByUsername un w = Some u ->
  SpecStore.locked_at (clock w) u = false ->
  verify pw (hashed_password u) = false ->
  login_for_access_token (mkForm un pw) (w, l)
  = (Raise InvalidCredentials,
     (with_users
        (update_where_id (id u)
           (fun r => set_lockout (failed_login_attempts u + 1) (Some (clock w))
                       (if threshold <=? failed_login_attempts u + 1
                        then Some (clock w + lockout_window)
                        else account_locked_until r) r) (users w)) w, l)).
Proof.
  intros Hf Hl Hv. unfold login_for_access_token, bind, call_exn. cbn.
  unfold SpecStore.authenticate. rewrite Hf, Hl, Hv. reflexivity.
Qed.

Lemma login_right un pw w l u :
  SpecStore.findByUsername un w = Some u ->
  SpecStore.locked_at (clock w) u = false ->
  verify pw (hashed_password u) = true ->
  fst (login_for_access_token (mkForm un pw) (w, l))
  = Return [("access_token", JStr (sign (username u)
                                     (clock w + timedelta_minutes expire_minutes)));
            ("token_type", JStr "bearer")].
Proof.
  intros Hf Hl Hv. unfold login_for_access_token, bind, call_exn. cbn.
  unfold SpecStore.authenticate. rewrite Hf, Hl, Hv. reflexivity.
Qed.

(** A login that fails with [InvalidCredentials] for an existing user was a
    wrong password on an account that was not locked. *)
Lemma login_InvalidCredentials_inv un pw w l u s :
  SpecStore.findByUsername un w = Some u ->
  login_for_access_token (mkForm un pw) (w, l) = (Raise InvalidCredentials, s) ->
  SpecStore.locked_at (clock w) u = false /\ verify pw (hashed_password u) = false.
Proof.
  intros Hf. unfold login_for_access_token, bind, call_exn. cbn.
  unfold SpecStore.authenticate. rewrite Hf.
  destruct (SpecStore.locked_at (clock w) u); [discriminate |].
  destruct (verify pw (hashed_password u)); [discriminate |].
  auto.
Qed.

(** After a run of failures, all of them [InvalidCredentials], the row found
    under the username counts them, keeps its hash, and is locked from the
    last failure on once the count has reached the threshold. *)
Lemma run_logins_failures un attempts :
  forall w u,
    SpecStore.findByUsername un w = Some u ->
    Forall (fun o => o = Raise InvalidCredentials) (fst (run_logins un attempts w)) ->
    exists u',
      SpecStore.findByUsername un (snd (run_logins un attempts w)) = Some u'
      /\ failed_login_attempts u' = failed_login_attempts u + Z.of_nat (length attempts)
      /\ hashed_password u' = hashed_password u
      /\ username u' = username u
      /\ (attempts = [] -> u' = u)
      /\ (attempts <> [] -> threshold <= failed_login_attempts u' ->
          account_locked_until u' = Some (last (map fst attempts) 0 + lockout_window)).
Proof.
  induction attempts as [| [t pw] rest IH]; intros w u Hf Hall.
  - exists u. cbn. repeat split; auto; try lia. intros H. contradiction.
  - cbn [run_logins] in *.
    destruct (login_for_access_token (mkForm un pw) (with_clock t w, [])) as [o [w1 l1]] eqn:E.
    destruct (run_logins un rest w1) as [os w2] eqn:R.
    cbn [fst snd] in *. inversion Hall as [| ? ? Ho Hrest]; subst.
    pose proof (login_InvalidCredentials_inv un pw (with_clock t w) [] u _ Hf E) as [Hl Hv].
    rewrite (login_wrong un pw (with_clock t w) [] u Hf Hl Hv) in E.
    injection E as E _. cbn [clock with_clock] in *.
    set (u1 := set_lockout (failed_login_attempts u + 1) (Some t)
                 (if threshold <=? failed_login_attempts u + 1
                  then Some (t + lockout_window) else account_locked_until u) u) in *.
    assert (Hf1 : SpecStore.findByUsername un w1 = Some u1).
    { subst w1. unfold SpecStore.findByUsername. cbn [users with_users with_clock].
      rewrite find_update_where_id by reflexivity.
      unfold SpecStore.findByUsername in Hf. cbn [users with_clock] in Hf.
      rewrite Hf. cbn. rewrite Z.eqb_refl. reflexivity. }
    specialize (IH w1 u1 Hf1). rewrite R in IH. cbn [fst snd] in IH.
    destruct (IH Hrest) as [u' [Hf' [Hc [Hh [Hn [Hnil Hlock]]]]]].
    exists u'. split; [exact Hf' |]. split; [| split; [| split; [| split]]].
    + rewrite Hc. cbn [length]. unfold u1. cbn. lia.
    + rewrite Hh. reflexivity.
    + rewrite Hn. reflexivity.
    + intros H. discriminate H.
    + intros _ Hth. destruct rest as [| a rest'].
      * rewrite (Hnil eq_refl) in *. cbn [map last fst]. unfold u1 in *. cbn in *.
        assert (Hb : (threshold <=? failed_login_attempts u + 1) = true)
          by (apply Z.leb_le; lia).
        rewrite Hb. reflexivity.
      * rewrite Hlock; [| discriminate | exact Hth].
        reflexivity.
Qed.

(** While the lock holds, every further attempt is refused and changes no
    row. *)
Lemma run_logins_locked un later T :
  forall w u,
    SpecStore.findByUsername un w = Some u ->
    account_locked_until u = Some T ->
    Forall (fun a => fst a < T) later ->
    Forall (fun o => exists remaining, 0 < remaining /\ o = Raise (AccountLocked remaining))
           (fst (run_logins un later w))
    /\ users (snd (run_logins un later w)) = users w.
Proof.
  induction later as [| [t pw] rest IH]; intros w u Hf HT Hall.
  - cbn. split; [constructor | reflexivity].
  - inversion Hall as [| ? ? Ht Hrest]; subst. cbn [fst] in Ht.
    cbn [run_logins].
    rewrite (login_locked un pw (with_clock t w) [] u T Hf HT Ht).
    specialize (IH (with_clock t w) u Hf HT Hrest).
    destruct (run_logins un rest (with_clock t w)) as [os w2].
    cbn [fst snd] in *. destruct IH as [IH1 IH2]. split.
    + constructor; [| exact IH1]. exists (T - t). split; [lia | reflexivity].
    + exact IH2.
Qed.

(** C3: with a threshold [N >= 1], after [N] consecutive logins that failed
    with [InvalidCredentials], every further login made before the lock
    window has elapsed (counted from the last of these failures) fails with
    [AccountLocked], whatever password it carries, the right one included;
    once the window has elapsed the right password is accepted again. *)
Theorem lockout_after_threshold_failures :
  forall (un : string) (u : User) (w : World)
         (failures later : list (Z * string)),
    1 <= threshold ->
    SpecStore.findByUsername un w = Some u ->
    0 <= failed_login_attempts u ->
    length failures = Z.to_nat threshold ->
    Forall (fun o => o = Raise InvalidCredentials) (fst (run_logins un failures w)) ->
    let w' := snd (run_logins un failures w) in
    let unlocked_at := last (map fst failures) 0 + lockout_window in
    (Forall (fun a => fst a < unlocked_at) later ->
     Forall (fun o => exists remaining, 0 < remaining /\ o = Raise (AccountLocked remaining))
            (fst (run_logins un later w')))
    /\ (forall t pw l,
          unlocked_at <= t ->
          verify pw (hashed_password u) = true ->
          exists resp, fst (login_for_access_token (mkForm un pw) (with_clock t w', l))
                       = Return resp).
Proof.
  intros un u w failures later Hth Hf Hc Hlen Hall w' unlocked_at.
  destruct (run_logins_failures un failures w u Hf Hall)
    as [u' [Hf' [Hcount [Hhash [_ [_ Hlock]]]]]].
  fold w' in Hf'.
  assert (Hne : failures <> []).
  { intros ->. cbn in Hlen. lia. }
  assert (HT : account_locked_until u' = Some unlocked_at).
  { apply Hlock; [exact Hne |]. rewrite Hcount, Hlen. lia. }
  split.
  - intros Hlater.
    exact (proj1 (run_logins_locked un later unlocked_at w' u' Hf' HT Hlater)).
  - intros t pw l Ht Hv. eexists.
    apply (login_right un pw (with_clock t w') l u').
    + exact Hf'.
    + unfold SpecStore.locked_at. rewrite HT. cbn [clock with_clock].
      apply Z.ltb_ge. exact Ht.
    + rewrite Hhash. exact Hv.
Qed.

End OverSpecStore.

(** ** The properties at work on a concrete deployment *)

Lemma reset_password_checks_resolution_only_witness :
  32 <= len (token Demo.consume)
  /\ truthy (reset_email Demo.consume) = true
  /\ reset_password (C := Demo.collab) Demo.consume (Demo.world_tk Demo.after_expiry [], [])
     = (Return reset_success_response,
        (mkWorld [Demo.alice_new; Demo.bob] Demo.after_expiry [] [],
         [(INFO, "Using demo token validation approach");
          (INFO, "Password reset successful for user: alice")])).
Proof.
  assert (Hlen : 32 <= len (token Demo.consume)) by (vm_compute; discriminate).
  assert (Hem : truthy (reset_email Demo.consume) = true) by reflexivity.
  split; [exact Hlen |]. split; [exact Hem |].
  destruct (reset_password_checks_resolution_only (C := Demo.collab) Demo.consume
              (Demo.world_tk Demo.after_expiry []) [] Hlen Hem) as [Hacc _].
  apply (Hacc Demo.alice_tk (Demo.world_tk Demo.after_expiry [])
              (mkWorld [Demo.alice_new_tk; Demo.bob] Demo.after_expiry [] []) true).
  - apply resolves_by_email with (w1 := Demo.world_tk Demo.after_expiry []); reflexivity.
  - reflexivity.
  - reflexivity.
Defined.

(** C1 (as stated) fails: [alice]'s stored token has expired, and in a second
    world she holds no token at all; both times the request that presents
    [TK] with her email is accepted and her password replaced. *)
Lemma reset_password_accepts_unusable_token :
  ~ rejects_unusable_token (C := Demo.collab) Demo.consume (Demo.world_tk Demo.after_expiry [])
  /\ ~ rejects_unusable_token (C := Demo.collab) Demo.consume Demo.world0.
Proof.
  split; intros H.
  - destruct (H Demo.alice_tk (Demo.world_tk Demo.after_expiry []) []) as [H1 _].
    + apply resolves_by_email with (w1 := Demo.world_tk Demo.after_expiry []); reflexivity.
    + right. right. exists (1000 + timedelta_hours 1). split; [reflexivity |].
      vm_compute. discriminate.
    + vm_compute in H1. discriminate H1.
  - destruct (H Demo.alice Demo.world0 []) as [H1 _].
    + apply resolves_by_email with (w1 := Demo.world0); reflexivity.
    + left. reflexivity.
    + vm_compute in H1. discriminate H1.
Qed.

(** C2 (as stated) fails: [alice] consumes [TK], and the same request is
    accepted a second time. *)
Lemma reset_password_not_single_use :
  ~ single_use (C := Demo.collab) Demo.consume (Demo.world_tk 2000 []).
Proof.
  intros H.
  destruct (H [] reset_success_response
              (mkWorld [Demo.alice_new; Demo.bob] 2000 [] [],
               [(INFO, "Using demo token validation approach");
                (INFO, "Password reset successful for user: alice")]) eq_refl)
    as [e [s2 H2]].
  vm_compute in H2. discriminate H2.
Qed.

Lemma reset_password_succeeds_again_witness :
  32 <= len (token Demo.consume)
  /\ truthy (reset_email Demo.consume) = true
  /\ find (fun r => (email r =? reset_email Demo.consume)%string)
          (users (Demo.world_tk 2000 [])) = Some Demo.alice_tk
  /\ faults (Demo.world_tk 2000 []) = []
  /\ exists w1 l1 w2 l2,
       reset_password (C := Demo.collab) Demo.consume (Demo.world_tk 2000 [], [])
       = (Return reset_success_response, (w1, l1))
       /\ reset_password (C := Demo.collab) Demo.consume (with_clock 3000 w1, l1)
          = (Return reset_success_response, (w2, l2)).
Proof.
  assert (Hlen : 32 <= len (token Demo.consume)) by (vm_compute; discriminate).
  assert (Hem : truthy (reset_email Demo.consume) = true) by reflexivity.
  assert (Hfind : find (fun r => (email r =? reset_email Demo.consume)%string)
                    (users (Demo.world_tk 2000 [])) = Some Demo.alice_tk) by reflexivity.
  assert (Hf : faults (Demo.world_tk 2000 []) = []) by reflexivity.
  split; [exact Hlen |]. split; [exact Hem |]. split; [exact Hfind |]. split; [exact Hf |].
  exact (reset_password_succeeds_again 2 (timedelta_minutes 15) Demo.hash Demo.verify
           Demo.sign Demo.str_http 30 Demo.consume (Demo.world_tk 2000 []) []
           Demo.alice_tk 3000 Hlen Hem Hfind Hf).
Defined.

(** C4 (as stated) fails: the password write succeeds, the clearing write
    does not, and the call still reports success, leaving the new hash next
    to the old token. *)
Lemma reset_password_not_atomic :
  ~ reset_is_atomic (C := Demo.collab) Demo.consume (Demo.world_tk 2000 [false; true]).
Proof.
  intros H.
  assert (Hres : resolves (C := Demo.collab) Demo.consume (Demo.world_tk 2000 [false; true])
                   Demo.alice_tk (Demo.world_tk 2000 [false; true])).
  { apply resolves_by_token. reflexivity. }
  destruct (H [] reset_success_response
              (mkWorld [Demo.alice_new_tk; Demo.bob] 2000 [] [])
              [(INFO, "Using demo token validation approach");
               (INFO, "Password reset successful for user: alice")]
              Demo.alice_tk (Demo.world_tk 2000 [false; true]) eq_refl Hres
              Demo.alice_new_tk (or_introl eq_refl) eq_refl) as [_ [Htok _]].
  discriminate Htok.
Qed.

Lemma reset_password_writes_then_clears_witness :
  32 <= len (token Demo.consume)
  /\ truthy (reset_email Demo.consume) = true
  /\ resolves (C := Demo.collab) Demo.consume (Demo.world_tk 2000 [true])
       Demo.alice_tk (Demo.world_tk 2000 [true])
  /\ fst (reset_password (C := Demo.collab) Demo.consume (Demo.world_tk 2000 [true], []))
     = Raise ResetPersistenceError
  /\ fst (snd (reset_password (C := Demo.collab) Demo.consume (Demo.world_tk 2000 [true], [])))
     = Demo.world_tk 2000 [].
Proof.
  assert (Hlen : 32 <= len (token Demo.consume)) by (vm_compute; discriminate).
  assert (Hem : truthy (reset_email Demo.consume) = true) by reflexivity.
  assert (Hres : resolves (C := Demo.collab) Demo.consume (Demo.world_tk 2000 [true])
                   Demo.alice_tk (Demo.world_tk 2000 [true])).
  { apply resolves_by_token. reflexivity. }
  split; [exact Hlen |]. split; [exact Hem |]. split; [exact Hres |].
  destruct (reset_password_writes_then_clears (C := Demo.collab) Demo.consume
              (Demo.world_tk 2000 [true]) [] Demo.alice_tk _ Hlen Hem Hres)
    as [_ [Hrefused _]].
  apply Hrefused. reflexivity.
Defined.

Lemma lockout_after_threshold_failures_witness :
  1 <= 2
  /\ SpecStore.findByUsername "alice" Demo.world0 = Some Demo.alice
  /\ 0 <= failed_login_attempts Demo.alice
  /\ length Demo.two_failures = Z.to_nat 2
  /\ Forall (fun o => o = Raise InvalidCredentials)
       (fst (run_logins (C := Demo.collab) "alice" Demo.two_failures Demo.world0))
  /\ Forall (fun a => fst a < 3000 + timedelta_minutes 15) Demo.then_right
  /\ Forall (fun o => exists remaining, 0 < remaining /\ o = Raise (AccountLocked remaining))
       (fst (run_logins (C := Demo.collab) "alice" Demo.then_right
               (snd (run_logins (C := Demo.collab) "alice" Demo.two_failures Demo.world0)))).
Proof.
  assert (H1 : 1 <= 2) by lia.
  assert (H2 : SpecStore.findByUsername "alice" Demo.world0 = Some Demo.alice) by reflexivity.
  assert (H3 : 0 <= failed_login_attempts Demo.alice) by (simpl; lia).
  assert (H4 : length Demo.two_failures = Z.to_nat 2) by reflexivity.
  assert (H5 : Forall (fun o => o = Raise InvalidCredentials)
                 (fst (run_logins (C := Demo.collab) "alice" Demo.two_failures Demo.world0))).
  { vm_compute. repeat constructor. }
  assert (H6 : Forall (fun a => fst a < 3000 + timedelta_minutes 15) Demo.then_right).
  { repeat constructor. }
  repeat (split; [assumption |]).
  exact (proj1 (lockout_after_threshold_failures 2 (timedelta_minutes 15) Demo.hash
                  Demo.verify Demo.sign Demo.str_http 30 "alice" Demo.alice Demo.world0
                  Demo.two_failures Demo.then_right H1 H2 H3 H4 H5) H6).
Defined.





Lemma change_password_wrong_current_answers_500_witness :
  verify_password (Collaborators := Demo.collab) "wrong" (hashed_password Demo.alice) = false
  /\ change_password (C := Demo.collab) (mkPasswordChange "wrong" "NewP@ss2") Demo.alice
       (Demo.world0, [])
     = (Raise (HTTPException 500
                 "An error occurred while changing the password: Incorrect current password"),
        (Demo.world0, [(ERROR, "Error changing password: Incorrect current password")])).
Proof.
  split; [reflexivity |].
  apply (proj1 (change_password_wrong_current_answers_500 (C := Demo.collab)
                  (mkPasswordChange "wrong" "NewP@ss2") Demo.alice Demo.world0 []
                  eq_refl)).
Defined.

Lemma update_user_profile_frame_witness :
  update_user_profile (C := Demo.collab) (mkUserUpdate "alice2" "a2@x.com") Demo.alice
    (Demo.world0, [])
  = (Return [("id", JInt 1); ("username", JStr "alice2"); ("email", JStr "a2@x.com");
             ("is_active", JBool true)],
     (mkWorld [Demo.alice_renamed; Demo.bob] 1000 [Demo.TK] [], []))
  /\ length [Demo.alice_renamed; Demo.bob] = length (users Demo.world0).
Proof.
  split; [reflexivity |].
  apply (proj1 (update_user_profile_frame (C := Demo.collab)
                  (mkUserUpdate "alice2" "a2@x.com") Demo.alice Demo.world0 [] _
                  (mkWorld [Demo.alice_renamed; Demo.bob] 1000 [Demo.TK] []) []
                  eq_refl)).
Defined.

Lemma reset_password_email_guard_dead_witness :
  Demo.has_at "" = false
  /\ accepted_by_schema Demo.has_at Demo.consume
  /\ fst (reset_password (C := Demo.collab) Demo.consume (Demo.world0, []))
     <> Raise EmailRequired.
Proof.
  split; [reflexivity |]. split; [reflexivity |].
  apply (proj2 (reset_password_email_guard_dead (C := Demo.collab) Demo.has_at eq_refl
                  Demo.consume (Demo.world0, []) eq_refl)).
Defined.

(** ** Registration *)

Lemma with_users_same w : with_users (users w) w = w.
Proof. destruct w. reflexivity. Qed.

Lemma db_io_no_fault {A} (op : list User -> (string + A) * list User) w l :
  faults w = [] ->
  db_io op (w, l)
  = match op (users w) with
    | (inl msg, rows) => (Raise (Exception msg), (with_users rows w, l))
    | (inr a, rows) => (Return a, (with_users rows w, l))
    end.
Proof. intros Hf. unfold db_io. rewrite (next_fault_none _ Hf). reflexivity. Qed.

Lemma find_app_split {A} (p : A -> bool) l1 l2 :
  find p (l1 ++ l2)%list
  = match find p l1 with
    | Some x => Some x
    | None => find p l2
    end.
Proof.
  induction l1 as [| a l1 IH]; [reflexivity |].
  cbn. destruct (p a); [reflexivity | exact IH].
Qed.

Lemma fresh_id_above rows i : In i (map id rows) -> i < fresh_id rows.
Proof.
  unfold fresh_id. induction rows as [| r rows IH]; cbn [map fold_right In]; [contradiction |].
  intros [<- | H]; [lia |]. specialize (IH H). lia.
Qed.

Lemma fresh_id_not_in rows : ~ In (fresh_id rows) (map id rows).
Proof. intros H. apply fresh_id_above in H. lia. Qed.

Lemma taken_false_not_in un em rows :
  existsb (fun u => (username u =? un)%string || (email u =? em)%string) rows = false ->
  ~ In un (map username rows) /\ ~ In em (map email rows).
Proof.
  induction rows as [| r rows IH]; cbn; [intros _; split; intros [] |].
  intros H. apply orb_false_iff in H. destruct H as [H1 H2].
  apply orb_false_iff in H1. destruct H1 as [Hu He].
  apply String.eqb_neq in Hu. apply String.eqb_neq in He.
  destruct (IH H2) as [IHu IHe].
  split; intros [Heq | Hin]; auto.
Qed.

Lemma find_none_taken_false un em rows :
  find (fun u => (username u =? un)%string) rows = None ->
  find (fun u => (email u =? em)%string) rows = None ->
  existsb (fun u => (username u =? un)%string || (email u =? em)%string) rows = false.
Proof.
  induction rows as [| r rows IH]; cbn; [reflexivity |].
  destruct (username r =? un)%string; [discriminate |].
  destruct (email r =? em)%string; [discriminate |].
  exact IH.
Qed.

Section Registration.

Context {C : Collaborators}.

(** X1: when the username lookup meets no store fault, registering a
    username that is already in the table fails with 400 "Username already
    registered".  Nothing is written, and exactly one store operation has
    run: one entry of the fault schedule is consumed, so the email lookup was
    not made. *)
Theorem register_user_username_taken :
  forall (user : UserCreate) (w : World) (l : list LogRecord) u,
    fst (next_fault w) = false ->
    find (fun r => (username r =? uc_username user)%string) (users w) = Some u ->
    register_user user (w, l)
    = (Raise (HTTPException 400 "Username already registered"), (snd (next_fault w), l)).
Proof.
  intros user w l u Hf Hfind. unfold register_user, bind, query_user_by_username, db_io.
  pose proof (next_fault_users w) as Hu.
  destruct (next_fault w) as [fault w0]. cbn [fst snd] in *. subst fault.
  rewrite Hu, Hfind, <- Hu, with_users_same. reflexivity.
Qed.

(** X2: registering a free username with an email that is already in the
    table fails with 400 "Email already registered" and writes nothing. *)
Theorem register_user_email_taken :
  forall (user : UserCreate) (w : World) (l : list LogRecord) u,
    faults w = [] ->
    find (fun r => (username r =? uc_username user)%string) (users w) = None ->
    find (fun r => (email r =? uc_email user)%string) (users w) = Some u ->
    register_user user (w, l)
    = (Raise (HTTPException 400 "Email already registered"), (w, l)).
Proof.
  intros user w l u Hf Hun Hem.
  unfold register_user, bind, query_user_by_username, query_user_by_email.
  rewrite (db_io_no_fault _ _ _ Hf), Hun, with_users_same.
  rewrite (db_io_no_fault _ _ _ Hf), Hem, with_users_same. reflexivity.
Qed.

(** What a successful registration did. *)
Lemma register_user_inv user w l resp w' l' :
  register_user user (w, l) = (Return resp, (w', l')) ->
  resp = [("message", JStr "User created successfully")]
  /\ l' = l
  /\ users w' = (users w ++ [new_user (fresh_id (users w)) (uc_username user) (uc_email user)
                               (get_password_hash (uc_password user))])%list
  /\ ~ In (uc_username user) (map username (users w))
  /\ ~ In (uc_email user) (map email (users w)).
Proof.
  intros H. unfold register_user in H.
  apply bind_inv_Return in H. destruct H as [q1 [[wa la] [Ha H]]].
  apply db_io_inv_Return in Ha. destruct Ha as [Ha [Hla _]].
  injection Ha as _ Hua.
  destruct q1; [discriminate H |].
  apply bind_inv_Return in H. destruct H as [q2 [[wb lb] [Hb H]]].
  apply db_io_inv_Return in Hb. destruct Hb as [Hb [Hlb _]].
  injection Hb as _ Hub.
  destruct q2; [discriminate H |].
  apply bind_inv_Return in H. destruct H as [nu [[wc lc] [Hc H]]].
  apply db_io_inv_Return in Hc. destruct Hc as [Hc [Hlc _]].
  apply bind_inv_Return in H. destruct H as [ru [[wd ld] [Hd H]]].
  apply db_io_inv_Return in Hd. destruct Hd as [Hd [Hld _]].
  injection H as <- <- <-.
  rewrite <- Hub, <- Hua in Hc.
  destruct (existsb _ (users w)) eqn:Ex; [discriminate Hc |].
  injection Hc as Hnu Huc.
  destruct (find (fun r => id r =? id nu) (users wc)); [| discriminate Hd].
  injection Hd as _ Hud.
  destruct (taken_false_not_in _ _ _ Ex) as [Hnu' Hne'].
  split; [reflexivity |]. split; [congruence |]. split; [congruence |].
  split; assumption.
Qed.

(** X3: a registration that succeeds appends exactly one row and touches no
    other: the new row has a primary key no row had, the hash of the
    password (not the password), is active, and carries no failed login, no
    lock and no reset token; the response is the fixed message and nothing
    is logged. *)
Theorem register_user_appends_one_row :
  forall (user : UserCreate) (w : World) (l : list LogRecord) resp w' l',
    register_user user (w, l) = (Return resp, (w', l')) ->
    resp = [("message", JStr "User created successfully")]
    /\ l' = l
    /\ users w' = (users w ++ [new_user (fresh_id (users w)) (uc_username user) (uc_email user)
                                 (get_password_hash (uc_password user))])%list
    /\ ~ In (fresh_id (users w)) (map id (users w))
    /\ ~ In (uc_username user) (map username (users w))
    /\ ~ In (uc_email user) (map email (users w)).
Proof.
  intros user w l resp w' l' H.
  destruct (register_user_inv _ _ _ _ _ _ H) as [Hr [Hl [Hrows [Hu He]]]].
  split; [exact Hr |]. split; [exact Hl |]. split; [exact Hrows |].
  split; [apply fresh_id_not_in |]. split; assumption.
Qed.

(** X4: registration keeps the table well formed: if primary keys, usernames
    and emails were pairwise distinct before a successful registration, they
    still are after it. *)
Theorem register_user_keeps_unique :
  forall (user : UserCreate) (w : World) (l : list LogRecord) resp w' l',
    unique_rows (users w) ->
    register_user user (w, l) = (Return resp, (w', l')) ->
    unique_rows (users w').
Proof.
  intros user w l resp w' l' [Hi [Hu He]] H.
  destruct (register_user_inv _ _ _ _ _ _ H) as [_ [_ [Hrows [Hfu Hfe]]]].
  pose proof (fresh_id_not_in (users w)) as Hfi.
  rewrite Hrows. unfold unique_rows. rewrite !map_app. cbn [map new_user id username email].
  assert (Hsnoc : forall (A : Type) (xs : list A) (x : A),
             NoDup xs -> ~ In x xs -> NoDup (xs ++ [x])%list).
  { intros A xs x Hxs Hx. apply NoDup_app; [exact Hxs | repeat constructor; intros [] |].
    intros a Ha [<- | []]. exact (Hx Ha). }
  repeat split; apply Hsnoc; assumption.
Qed.

Lemma find_id_fresh rows :
  find (fun r => id r =? fresh_id rows) rows = None.
Proof.
  destruct (find (fun r => id r =? fresh_id rows) rows) as [r |] eqn:E; [| reflexivity].
  apply find_some in E. destruct E as [Hin Heq]. apply Z.eqb_eq in Heq.
  exfalso. apply (fresh_id_not_in rows). rewrite <- Heq. apply in_map. exact Hin.
Qed.

(** With free names and no store fault pending, registration goes through. *)
Lemma register_user_accepts user w l :
  faults w = [] ->
  find (fun r => (username r =? uc_username user)%string) (users w) = None ->
  find (fun r => (email r =? uc_email user)%string) (users w) = None ->
  register_user user (w, l)
  = (Return [("message", JStr "User created successfully")],
     (with_users (users w ++ [new_user (fresh_id (users w)) (uc_username user) (uc_email user)
                                (get_password_hash (uc_password user))])%list w, l)).
Proof.
  intros Hf Hun Hem.
  unfold register_user, bind, query_user_by_username, query_user_by_email,
    add_and_commit, db_refresh.
  rewrite (db_io_no_fault _ _ _ Hf), Hun, with_users_same.
  rewrite (db_io_no_fault _ _ _ Hf), Hem, with_users_same.
  rewrite (db_io_no_fault _ _ _ Hf), (find_none_taken_false _ _ _ Hun Hem).
  rewrite db_io_no_fault by exact Hf.
  cbn [users with_users]. rewrite find_app_split.
  change (id (new_user (fresh_id (users w)) (uc_username user) (uc_email user)
                (get_password_hash (uc_password user)))) with (fresh_id (users w)).
  rewrite find_id_fresh. cbn [find new_user id]. rewrite Z.eqb_refl.
  destruct w; reflexivity.
Qed.

(** X5: with no store fault pending, a registration under a free username
    and a free email succeeds, and from then on the names are taken:
    registering the same username again fails with 400 "Username already
    registered", and another username with the same email fails with 400
    "Email already registered". *)
Theorem register_user_then_names_taken :
  forall (user : UserCreate) (w : World) (l : list LogRecord),
    faults w = [] ->
    find (fun r => (username r =? uc_username user)%string) (users w) = None ->
    find (fun r => (email r =? uc_email user)%string) (users w) = None ->
    exists w1,
      register_user user (w, l)
      = (Return [("message", JStr "User created successfully")], (w1, l))
      /\ (forall again l2,
             uc_username again = uc_username user ->
             register_user again (w1, l2)
             = (Raise (HTTPException 400 "Username already registered"), (w1, l2)))
      /\ (forall again l2,
             uc_username again <> uc_username user ->
             find (fun r => (username r =? uc_username again)%string) (users w) = None ->
             uc_email again = uc_email user ->
             register_user again (w1, l2)
             = (Raise (HTTPException 400 "Email already registered"), (w1, l2))).
Proof.
  intros user w l Hf Hun Hem.
  set (u := new_user (fresh_id (users w)) (uc_username user) (uc_email user)
              (get_password_hash (uc_password user))).
  exists (with_users (users w ++ [u])%list w).
  split; [exact (register_user_accepts user w l Hf Hun Hem) |]. split.
  - intros again l2 Heq.
    unfold register_user, bind, query_user_by_username.
    rewrite db_io_no_fault by exact Hf. cbn [users with_users].
    rewrite find_app_split, Heq, Hun. cbn [find u new_user username].
    rewrite String.eqb_refl. destruct w; reflexivity.
  - intros again l2 Hne Hfree Heq.
    unfold register_user, bind, query_user_by_username, query_user_by_email.
    rewrite db_io_no_fault by exact Hf. cbn [users with_users].
    rewrite find_app_split, Hfree. cbn [find u new_user username].
    assert (Hb : (uc_username user =? uc_username again)%string = false).
    { apply String.eqb_neq. intros E. apply Hne. symmetry. exact E. }
    rewrite Hb.
    rewrite db_io_no_fault by (destruct w; exact Hf). cbn [users with_users].
    rewrite find_app_split, Heq, Hem. cbn [find u new_user email].
    rewrite String.eqb_refl. destruct w; reflexivity.
Qed.

End Registration.

(** ** The profile read *)

Section ProfileRead.

Context {C : Collaborators}.

(** X6: when the user dict has the four keys, [read_users_me] returns exactly
    these four entries and changes nothing; whatever else the dict holds
    (the password hash among it) is not part of the response. *)
Theorem read_users_me_four_fields :
  forall (current_user : Dict) (s : State) v_id v_username v_email v_is_active,
    dict_get current_user "id" = Some v_id ->
    dict_get current_user "username" = Some v_username ->
    dict_get current_user "email" = Some v_email ->
    dict_get current_user "is_active" = Some v_is_active ->
    read_users_me current_user s
    = (Return [("id", v_id); ("username", v_username);
               ("email", v_email); ("is_active", v_is_active)], s).
Proof.
  intros current_user s vi vu ve va Hi Hu He Ha.
  unfold read_users_me, try_except, bind, getitem.
  rewrite Hi, Hu, He, Ha. reflexivity.
Qed.

(** X7: when one of the four keys is missing from the user dict, the
    [KeyError] of the first missing one (in the order id, username, email,
    is_active) is logged and answered with a 500 whose detail quotes the
    key. *)
Theorem read_users_me_missing_key :
  forall (current_user : Dict) (w : World) (l : list LogRecord) (k : string),
    first_missing current_user = Some k ->
    read_users_me current_user (w, l)
    = (Raise (HTTPException 500
                ("An error occurred while getting the profile: '" ++ k ++ "'")),
       (w, (l ++ [(ERROR, ("Error getting user profile: '" ++ k ++ "'")%string)])%list)).
Proof.
  intros current_user w l k Hk. unfold first_missing in Hk.
  unfold read_users_me, try_except, bind, getitem.
  destruct (dict_get current_user "id"); [| injection Hk as <-; reflexivity].
  destruct (dict_get current_user "username"); [| injection Hk as <-; reflexivity].
  destruct (dict_get current_user "email"); [| injection Hk as <-; reflexivity].
  destruct (dict_get current_user "is_active"); [discriminate Hk |].
  injection Hk as <-. reflexivity.
Qed.

End ProfileRead.

(** ** What the reset endpoints can answer *)

(** Case analysis on the results of the collaborators, in call order. *)
Ltac run_cases :=
  repeat (cbn;
          match goal with
          | |- context [len ?t <? 32] => destruct (len t <? 32)
          | |- context [truthy ?e] => destruct (truthy e)
          | |- context [get_user_by_email ?a ?w] =>
              destruct (get_user_by_email a w) as [[? | [? |]] ?]
          | |- context [get_user_by_reset_token ?a ?w] =>
              destruct (get_user_by_reset_token a w) as [[? | [? |]] ?]
          | |- context [token_urlsafe ?a ?w] =>
              destruct (token_urlsafe a w) as [? ?]
          | |- context [update_user_password ?a ?b ?w] =>
              destruct (update_user_password a b w) as [[? | [|]] ?]
          | |- context [store_reset_token ?a ?b ?c ?w] =>
              destruct (store_reset_token a b c w) as [[? | [|]] ?]
          end).

Section ResetOutcomes.

Context {C : Collaborators}.

(** X8: whatever the collaborators do, raise included, [forgot_password]
    answers either with the generic success message or with the fixed 500
    "An unexpected error occurred": nothing of the user, the token or a store
    error reaches the caller. *)
Theorem forgot_password_outcomes :
  forall (request : ForgotPasswordRequest) (s : State),
    forgot_outcome (fst (forgot_password request s)).
Proof.
  intros request [w l]. unfold forgot_outcome.
  unfold forgot_password, try_except, bind, call, call_total, logger, datetime_now,
    raise, ret.
  run_cases; first [left; reflexivity | right; reflexivity].
Qed.

(** X9: for an email that resolves to a user, the reset token drawn for the
    call is written to the log in clear, at level INFO, whether the store
    then keeps it, refuses it or raises. *)
Theorem forgot_password_logs_the_token :
  forall (request : ForgotPasswordRequest) (w : World) (l : list LogRecord) u w1 tok w2,
    get_user_by_email (forgot_email request) w = (inr (Some u), w1) ->
    token_urlsafe 32 w1 = (tok, w2) ->
    In (INFO, ("Reset token generated: " ++ tok)%string)
       (snd (snd (forgot_password request (w, l)))).
Proof.
  intros request w l u w1 tok w2 He Ht.
  unfold forgot_password, try_except, bind, call, call_total, logger, datetime_now,
    raise, ret.
  rewrite He, Ht.
  destruct (store_reset_token (id u) (Some tok) (Some (clock w2 + timedelta_hours 1)) w2)
    as [[msg | b] w3]; [| destruct b]; cbn [fst snd];
    repeat rewrite in_app_iff; cbn [In]; tauto.
Qed.

(** X10: whatever the collaborators do, raise included, [reset_password] has
    one of six outcomes: the success message, or one of the five fixed
    errors (malformed token, email required, invalid token or email,
    persistence error, unexpected error).  No message of a store exception
    reaches the caller. *)
Theorem reset_password_outcomes :
  forall (request : ResetPasswordRequest) (s : State),
    reset_outcome (fst (reset_password request s)).
Proof.
  intros request [w l]. unfold reset_outcome.
  unfold reset_password, resolve_reset_user, update_reset_password, try_except, bind,
    call, logger, raise, ret.
  run_cases;
    first [ left; reflexivity
          | right; left; reflexivity
          | right; right; left; reflexivity
          | right; right; right; left; reflexivity
          | right; right; right; right; left; reflexivity
          | right; right; right; right; right; reflexivity ].
Qed.

(** X11: a well-formed token sent with an empty email is refused with 400
    "Please provide your email along with the token" before any lookup: the
    world is untouched and the log has gained the demo notice only. *)
Theorem reset_password_empty_email :
  forall (request : ResetPasswordRequest) (w : World) (l : list LogRecord),
    32 <= len (token request) ->
    reset_email request = "" ->
    reset_password request (w, l) = (Raise EmailRequired, (w, demo_log l)).
Proof.
  intros request w l Hlen Hem. unfold reset_password, try_except.
  assert (Hl : (len (token request) <? 32) = false) by (apply Z.ltb_ge; exact Hlen).
  rewrite Hl, Hem. reflexivity.
Qed.

(** X12: when the token lookup finds a user, the email of the request plays
    no part: two requests with the same token and new password, and any two
    non-empty emails, have the same outcome, the same writes and the same
    log. *)
Theorem reset_password_ignores_email_when_token_resolves :
  forall (request request' : ResetPasswordRequest) (w : World) (l : list LogRecord) u w1,
    token request' = token request ->
    new_password request' = new_password request ->
    truthy (reset_email request) = true ->
    truthy (reset_email request') = true ->
    get_user_by_reset_token (token request) w = (inr (Some u), w1) ->
    reset_password request' (w, l) = reset_password request (w, l).
Proof.
  intros request request' w l u w1 Htok Hnp Hem Hem' Hfound.
  destruct (len (token request) <? 32) eqn:Hlen.
  - unfold reset_password, try_except. rewrite Htok, Hlen. reflexivity.
  - apply Z.ltb_ge in Hlen.
    assert (Hres : resolves request w u w1) by (apply resolves_by_token; exact Hfound).
    assert (Hres' : resolves request' w u w1).
    { apply resolves_by_token. rewrite Htok. exact Hfound. }
    rewrite (reset_password_past_guards request w l Hlen Hem).
    assert (Hlen' : 32 <= len (token request')) by (rewrite Htok; exact Hlen).
    rewrite (reset_password_past_guards request' w l Hlen' Hem').
    unfold try_except.
    rewrite (bind_Return _ _ _ _ _ (resolve_reset_user_resolves _ _ _ _ _ Hres)).
    rewrite (bind_Return _ _ _ _ _ (resolve_reset_user_resolves _ _ _ _ _ Hres')).
    unfold update_reset_password. rewrite Hnp. reflexivity.
Qed.

(** X13: when the password write succeeded and the clearing call raises, the
    call fails with [ResetPersistenceError] although the new hash is already
    written: the world is the one the two store calls left, and the log holds
    the success record followed by the error. *)
Theorem reset_password_fails_after_write_when_clearing_raises :
  forall (request : ResetPasswordRequest) (w : World) (l : list LogRecord) u w1 w2 msg w3,
    32 <= len (token request) ->
    truthy (reset_email request) = true ->
    resolves request w u w1 ->
    update_user_password (id u) (get_password_hash (new_password request)) w1
    = (inr true, w2) ->
    store_reset_token (id u) None None w2 = (inl msg, w3) ->
    reset_password request (w, l)
    = (Raise ResetPersistenceError,
       (w3, (demo_log l
             ++ [(INFO, ("Password reset successful for user: " ++ username u)%string);
                 (ERROR, ("Error updating password: " ++ msg)%string)])%list)).
Proof.
  intros request w l u w1 w2 msg w3 Hlen Hem Hres Hu Hs.
  rewrite (reset_password_past_guards _ _ _ Hlen Hem).
  erewrite try_except_Raise.
  2: { rewrite (bind_Return _ _ _ _ _ (resolve_reset_user_resolves _ _ _ _ _ Hres)).
       unfold update_reset_password. erewrite try_except_Raise.
       2: { rewrite (bind_Return _ _ _ _ _ (call_Return _ _ _ _ _ Hu)).
            rewrite (bind_Return _ _ _ _ _ (logger_run _ _ _ _)).
            apply bind_Raise. apply (call_Raise _ _ _ _ _ Hs). }
       unfold bind, logger, raise. rewrite <- app_assoc. reflexivity. }
  reflexivity.
Qed.

(** X14: when a lookup raises (the token lookup, or the email lookup after
    the token found nobody), the call fails with the fixed 500 "An unexpected
    error occurred", the exception is logged, and no password write is
    made: the world is the one the lookups left. *)
Theorem reset_password_lookup_raises :
  forall (request : ResetPasswordRequest) (w : World) (l : list LogRecord),
    32 <= len (token request) ->
    truthy (reset_email request) = true ->
    (forall msg w1,
        get_user_by_reset_token (token request) w = (inl msg, w1) ->
        reset_password request (w, l)
        = (Raise InternalFailure,
           (w1, (demo_log l
                 ++ [(ERROR, ("Unexpected error in reset_password: " ++ msg)%string)])%list)))
    /\ (forall w1 msg w2,
           get_user_by_reset_token (token request) w = (inr None, w1) ->
           get_user_by_email (reset_email request) w1 = (inl msg, w2) ->
           reset_password request (w, l)
           = (Raise InternalFailure,
              (w2, (demo_log l
                    ++ [(ERROR, ("Unexpected error in reset_password: " ++ msg)%string)])%list))).
Proof.
  intros request w l Hlen Hem. split.
  - intros msg w1 Ht.
    rewrite (reset_password_past_guards _ _ _ Hlen Hem).
    erewrite try_except_Raise.
    2: { apply bind_Raise. unfold resolve_reset_user. apply bind_Raise.
         apply (call_Raise _ _ _ _ _ Ht). }
    reflexivity.
  - intros w1 msg w2 Ht He.
    rewrite (reset_password_past_guards _ _ _ Hlen Hem).
    erewrite try_except_Raise.
    2: { apply bind_Raise. unfold resolve_reset_user.
         rewrite (bind_Return _ _ _ _ _ (call_Return _ _ _ _ _ Ht)).
         apply bind_Raise. apply (call_Raise _ _ _ _ _ He). }
    reflexivity.
Qed.

End ResetOutcomes.

(** ** Profile update and password change: refusals and frames *)

Section ProfileRefusals.

Context {C : Collaborators}.

(** X15: asking for a username another row already has does not reach the
    caller as the 400 "Username already exists" the endpoint raises: its own
    [except Exception] turns it into a 500 whose detail wraps it.  Nothing is
    written, and the error is logged. *)
Theorem update_user_profile_username_taken :
  forall (user_update : UserUpdate) (current_user : User)
         (w : World) (l : list LogRecord) u,
    faults w = [] ->
    upd_username user_update <> username current_user ->
    find (fun r => (username r =? upd_username user_update)%string) (users w) = Some u ->
    update_user_profile user_update current_user (w, l)
    = (Raise (HTTPException 500
                ("An error occurred while updating the profile: "
                 ++ str_HTTPException 400 "Username already exists")),
       (w, (l ++ [(ERROR, ("Error updating user profile: "
                           ++ str_HTTPException 400 "Username already exists")%string)])%list)).
Proof.
  intros user_update current_user w l u Hf Hne Hfind.
  apply String.eqb_neq in Hne.
  unfold update_user_profile, try_except. unfold bind at 1. rewrite Hne. cbn [negb].
  unfold bind at 1. unfold select_id_by_username.
  rewrite (db_io_no_fault _ _ _ Hf), Hfind, with_users_same. reflexivity.
Qed.

(** X16: asking for an email another row already has, with a username that
    is kept or free, is likewise answered with a 500 wrapping "Email already
    exists"; nothing is written. *)
Theorem update_user_profile_email_taken :
  forall (user_update : UserUpdate) (current_user : User)
         (w : World) (l : list LogRecord) u,
    faults w = [] ->
    upd_username user_update = username current_user
    \/ find (fun r => (username r =? upd_username user_update)%string) (users w) = None ->
    upd_email user_update <> email current_user ->
    find (fun r => (email r =? upd_email user_update)%string) (users w) = Some u ->
    update_user_profile user_update current_user (w, l)
    = (Raise (HTTPException 500
                ("An error occurred while updating the profile: "
                 ++ str_HTTPException 400 "Email already exists")),
       (w, (l ++ [(ERROR, ("Error updating user profile: "
                           ++ str_HTTPException 400 "Email already exists")%string)])%list)).
Proof.
  intros user_update current_user w l u Hf Hun Hne Hfind.
  apply String.eqb_neq in Hne.
  assert (Hfirst :
            (if negb (upd_username user_update =? username current_user)%string
             then result <- select_id_by_username (upd_username user_update) ;;
                  match result with
                  | Some _ => raise (HTTPException 400 "Username already exists")
                  | None => ret tt
                  end
             else ret tt) (w, l) = (Return tt, (w, l))).
  { destruct (upd_username user_update =? username current_user)%string eqn:E;
      [reflexivity |].
    destruct Hun as [Heq | Hnone].
    - apply String.eqb_neq in E. contradiction.
    - cbn [negb]. unfold bind, select_id_by_username.
      rewrite (db_io_no_fault _ _ _ Hf), Hnone, with_users_same. reflexivity. }
  unfold update_user_profile, try_except.
  rewrite (bind_Return _ _ _ _ _ Hfirst).
  unfold bind at 1. rewrite Hne. cbn [negb].
  unfold bind at 1. unfold select_id_by_email.
  rewrite (db_io_no_fault _ _ _ Hf), Hfind, with_users_same. reflexivity.
Qed.

Lemma update_password_sql_users h uid w l w1 l1 :
  update_password_sql h uid (w, l) = (Return tt, (w1, l1)) ->
  users w1 = update_where_id uid (set_hashed_password h) (users w) /\ l1 = l.
Proof.
  intros H. apply db_io_inv_Return in H. destruct H as [H [Hl _]].
  injection H as Hu. auto.
Qed.

(** X17: a password change succeeds only when the current password verifies
    against the hash of the caller; it then replaces the hash in the rows of
    the caller's id by the hash of the new password and changes nothing
    else: same rows in the same order, every other column and every other
    row as before, nothing logged. *)
Theorem change_password_frame :
  forall (password_change : PasswordChange) (current_user : User)
         (w : World) (l : list LogRecord) resp (w' : World) (l' : list LogRecord),
    change_password password_change current_user (w, l) = (Return resp, (w', l')) ->
    verify_password (current_password password_change) (hashed_password current_user) = true
    /\ resp = [("message", JStr "Password changed successfully")]
    /\ l' = l
    /\ length (users w') = length (users w)
    /\ forall n u', nth_error (users w') n = Some u' ->
         exists u, nth_error (users w) n = Some u
           /\ id u' = id u
           /\ username u' = username u
           /\ email u' = email u
           /\ is_active u' = is_active u
           /\ failed_login_attempts u' = failed_login_attempts u
           /\ last_failed_login u' = last_failed_login u
           /\ account_locked_until u' = account_locked_until u
           /\ reset_token u' = reset_token u
           /\ reset_token_expires u' = reset_token_expires u
           /\ (id u <> id current_user -> u' = u)
           /\ (id u = id current_user ->
               hashed_password u' = get_password_hash (pc_new_password password_change)).
Proof.
  intros password_change current_user w l resp w' l' H.
  unfold change_password in H.
  apply try_except_inv_Return in H.
  2: { intros e [w1 l1]. eexists. eexists. reflexivity. }
  destruct (verify_password (current_password password_change)
                            (hashed_password current_user)) eqn:Hv;
    [| discriminate H].
  cbn [negb] in H.
  apply bind_inv_Return in H. destruct H as [[] [[wa la] [Ha H]]].
  apply bind_inv_Return in H. destruct H as [[] [[wb lb] [Hb H]]].
  injection H as <- <- <-.
  apply update_password_sql_users in Ha. destruct Ha as [Ha Hla].
  apply db_commit_users in Hb. destruct Hb as [Hb Hlb].
  split; [reflexivity |]. split; [reflexivity |]. split; [congruence |].
  rewrite Hb, Ha. split.
  - unfold update_where_id. apply length_map.
  - intros n u' Hn. rewrite update_where_id_nth in Hn.
    destruct (nth_error (users w) n) as [u |]; [| discriminate Hn].
    exists u. split; [reflexivity |].
    cbn in Hn. injection Hn as Hn.
    destruct (id u =? id current_user) eqn:E; subst u'.
    + apply Z.eqb_eq in E. cbn.
      do 9 (split; [reflexivity |]). split.
      * intros Hne. contradiction.
      * intros _. reflexivity.
    + apply Z.eqb_neq in E.
      do 9 (split; [reflexivity |]). split.
      * intros _. reflexivity.
      * intros Heq. contradiction.
Qed.

End ProfileRefusals.

(** ** Issuance: what the two branches do to the world *)

Section IssuanceEffects.

Context {C : Collaborators}.

(** X18: for an email the lookup does not find, [forgot_password] draws no
    token and makes no store write: the world is the one the lookup left,
    and the log gains one INFO record naming the email. *)
Theorem forgot_password_unregistered_writes_nothing :
  forall (request : ForgotPasswordRequest) (w : World) (l : list LogRecord) w1,
    get_user_by_email (forgot_email request) w = (inr None, w1) ->
    forgot_password request (w, l)
    = (Return generic_reset_response,
       (w1, (l ++ [(INFO, ("Forgot password request for non-existent email: "
                           ++ forgot_email request)%string)])%list)).
Proof.
  intros request w l w1 He. exact (forgot_password_unregistered _ _ _ _ He).
Qed.

(** X19: for an email that resolves to a user, the store is handed the id of
    that user, the token just drawn, and an expiry exactly one hour
    (3 600 000 000 microseconds) after the clock of the call; the world the
    endpoint leaves is the one that store call returned. *)
Theorem forgot_password_expiry_one_hour :
  forall (request : ForgotPasswordRequest) (w : World) (l : list LogRecord)
         u w1 tok w2 b w3,
    get_user_by_email (forgot_email request) w = (inr (Some u), w1) ->
    token_urlsafe 32 w1 = (tok, w2) ->
    store_reset_token (id u) (Some tok) (Some (clock w2 + 3600000000)) w2 = (inr b, w3) ->
    fst (forgot_password request (w, l)) = Return generic_reset_response
    /\ fst (snd (forgot_password request (w, l))) = w3.
Proof.
  intros request w l u w1 tok w2 b w3 He Ht Hs.
  rewrite (forgot_password_registered _ _ _ _ _ _ _ _ _ He Ht Hs). split; reflexivity.
Qed.

End IssuanceEffects.

(** ** The further properties at work on the concrete deployment *)

Lemma register_user_username_taken_witness :
  fst (next_fault (mkWorld [Demo.alice; Demo.bob] 1000 [] [false; true])) = false
  /\ find (fun r => (username r =? "alice")%string) [Demo.alice; Demo.bob] = Some Demo.alice
  /\ register_user (C := Demo.collab) (mkUserCreate "alice" "other@x.com" "pw")
       (mkWorld [Demo.alice; Demo.bob] 1000 [] [false; true], [])
     = (Raise (HTTPException 400 "Username already registered"),
        (mkWorld [Demo.alice; Demo.bob] 1000 [] [true], [])).
Proof.
  split; [reflexivity |]. split; [reflexivity |].
  apply (register_user_username_taken (C := Demo.collab)
           (mkUserCreate "alice" "other@x.com" "pw")
           (mkWorld [Demo.alice; Demo.bob] 1000 [] [false; true]) [] Demo.alice);
    reflexivity.
Defined.

Lemma register_user_email_taken_witness :
  faults Demo.world0 = []
  /\ find (fun r => (username r =? "alicia")%string) (users Demo.world0) = None
  /\ find (fun r => (email r =? "a@x.com")%string) (users Demo.world0) = Some Demo.alice
  /\ register_user (C := Demo.collab) (mkUserCreate "alicia" "a@x.com" "pw")
       (Demo.world0, [])
     = (Raise (HTTPException 400 "Email already registered"), (Demo.world0, [])).
Proof.
  split; [reflexivity |]. split; [reflexivity |]. split; [reflexivity |].
  apply (register_user_email_taken (C := Demo.collab)
           (mkUserCreate "alicia" "a@x.com" "pw") Demo.world0 [] Demo.alice);
    reflexivity.
Defined.

Lemma register_user_appends_one_row_witness :
  register_user (C := Demo.collab) Demo.carol (Demo.world0, [])
  = (Return [("message", JStr "User created successfully")],
     (mkWorld [Demo.alice; Demo.bob; Demo.carol_row] 1000 [Demo.TK] [], []))
  /\ [Demo.alice; Demo.bob; Demo.carol_row]
     = (users Demo.world0
        ++ [new_user (fresh_id (users Demo.world0)) "carol" "c@x.com" (Demo.hash "S3cret")])%list.
Proof.
  split; [reflexivity |].
  apply (proj1 (proj2 (proj2 (register_user_appends_one_row (C := Demo.collab) Demo.carol
                                Demo.world0 [] _
                                (mkWorld [Demo.alice; Demo.bob; Demo.carol_row] 1000
                                         [Demo.TK] []) [] eq_refl)))).
Defined.

Lemma register_user_keeps_unique_witness :
  unique_rows (users Demo.world0)
  /\ unique_rows [Demo.alice; Demo.bob; Demo.carol_row].
Proof.
  assert (Hu : unique_rows (users Demo.world0)).
  { unfold unique_rows. cbn.
    repeat split; repeat (constructor; [cbn; intuition discriminate |]); constructor. }
  split; [exact Hu |].
  apply (register_user_keeps_unique (C := Demo.collab) Demo.carol Demo.world0 [] _
           (mkWorld [Demo.alice; Demo.bob; Demo.carol_row] 1000 [Demo.TK] []) [] Hu eq_refl).
Defined.

Lemma register_user_then_names_taken_witness :
  faults Demo.world0 = []
  /\ find (fun r => (username r =? "carol")%string) (users Demo.world0) = None
  /\ find (fun r => (email r =? "c@x.com")%string) (users Demo.world0) = None
  /\ exists w1,
       register_user (C := Demo.collab) Demo.carol (Demo.world0, [])
       = (Return [("message", JStr "User created successfully")], (w1, []))
       /\ register_user (C := Demo.collab) (mkUserCreate "carol" "carol2@x.com" "pw") (w1, [])
          = (Raise (HTTPException 400 "Username already registered"), (w1, [])).
Proof.
  split; [reflexivity |]. split; [reflexivity |]. split; [reflexivity |].
  destruct (register_user_then_names_taken (C := Demo.collab) Demo.carol Demo.world0 []
              eq_refl eq_refl eq_refl) as [w1 [H1 [H2 _]]].
  exists w1. split; [exact H1 |]. apply H2. reflexivity.
Defined.

Lemma read_users_me_four_fields_witness :
  dict_get Demo.alice_dict "id" = Some (JInt 1)
  /\ dict_get Demo.alice_dict "username" = Some (JStr "alice")
  /\ dict_get Demo.alice_dict "email" = Some (JStr "a@x.com")
  /\ dict_get Demo.alice_dict "is_active" = Some (JBool true)
  /\ read_users_me (C := Demo.collab) Demo.alice_dict (Demo.world0, [])
     = (Return [("id", JInt 1); ("username", JStr "alice");
                ("email", JStr "a@x.com"); ("is_active", JBool true)],
        (Demo.world0, [])).
Proof.
  repeat (split; [reflexivity |]).
  apply (read_users_me_four_fields (C := Demo.collab) Demo.alice_dict (Demo.world0, []));
    reflexivity.
Defined.

Lemma read_users_me_missing_key_witness :
  first_missing [("id", JInt 1); ("username", JStr "alice")] = Some "email"
  /\ read_users_me (C := Demo.collab) [("id", JInt 1); ("username", JStr "alice")]
       (Demo.world0, [])
     = (Raise (HTTPException 500 "An error occurred while getting the profile: 'email'"),
        (Demo.world0, [(ERROR, "Error getting user profile: 'email'")])).
Proof.
  split; [reflexivity |].
  apply (read_users_me_missing_key (C := Demo.collab)
           [("id", JInt 1); ("username", JStr "alice")] Demo.world0 [] "email").
  reflexivity.
Defined.

Lemma forgot_password_logs_the_token_witness :
  get_user_by_email (Collaborators := Demo.collab) "a@x.com" Demo.world0
  = (inr (Some Demo.alice), Demo.world0)
  /\ token_urlsafe (Collaborators := Demo.collab) 32 Demo.world0
     = (Demo.TK, mkWorld [Demo.alice; Demo.bob] 1000 [] [])
  /\ In (INFO, "Reset token generated: tk-0123456789abcdef0123456789abcdef")
       (snd (snd (forgot_password (C := Demo.collab) (mkForgot "a@x.com") (Demo.world0, [])))).
Proof.
  split; [reflexivity |]. split; [reflexivity |].
  apply (forgot_password_logs_the_token (C := Demo.collab) (mkForgot "a@x.com")
           Demo.world0 [] Demo.alice Demo.world0 Demo.TK
           (mkWorld [Demo.alice; Demo.bob] 1000 [] []));
    reflexivity.
Defined.

Lemma reset_password_empty_email_witness :
  32 <= len (token (mkReset Demo.TK "NewP@ss2" ""))
  /\ reset_email (mkReset Demo.TK "NewP@ss2" "") = ""
  /\ reset_password (C := Demo.collab) (mkReset Demo.TK "NewP@ss2" "") (Demo.world0, [])
     = (Raise EmailRequired,
        (Demo.world0, [(INFO, "Using demo token validation approach")])).
Proof.
  assert (Hlen : 32 <= len (token (mkReset Demo.TK "NewP@ss2" "")))
    by (vm_compute; discriminate).
  split; [exact Hlen |]. split; [reflexivity |].
  apply (reset_password_empty_email (C := Demo.collab) (mkReset Demo.TK "NewP@ss2" "")
           Demo.world0 [] Hlen eq_refl).
Defined.

Lemma reset_password_ignores_email_when_token_resolves_witness :
  get_user_by_reset_token (Collaborators := Demo.collab) Demo.TK (Demo.world_tk 2000 [])
  = (inr (Some Demo.alice_tk), Demo.world_tk 2000 [])
  /\ reset_password (C := Demo.collab) (mkReset Demo.TK "NewP@ss2" "b@x.com")
       (Demo.world_tk 2000 [], [])
     = reset_password (C := Demo.collab) Demo.consume (Demo.world_tk 2000 [], []).
Proof.
  split; [reflexivity |].
  apply (reset_password_ignores_email_when_token_resolves (C := Demo.collab)
           Demo.consume (mkReset Demo.TK "NewP@ss2" "b@x.com") (Demo.world_tk 2000 []) []
           Demo.alice_tk (Demo.world_tk 2000 []));
    reflexivity.
Defined.

Lemma reset_password_fails_after_write_when_clearing_raises_witness :
  32 <= len (token Demo.consume)
  /\ store_reset_token (Collaborators := Demo.broken_clear) 1 None None
       (mkWorld [Demo.alice_new_tk; Demo.bob] 2000 [] [])
     = (inl "connection lost", mkWorld [Demo.alice_new_tk; Demo.bob] 2000 [] [])
  /\ reset_password (C := Demo.broken_clear) Demo.consume (Demo.world_tk 2000 [], [])
     = (Raise ResetPersistenceError,
        (mkWorld [Demo.alice_new_tk; Demo.bob] 2000 [] [],
         [(INFO, "Using demo token validation approach");
          (INFO, "Password reset successful for user: alice");
          (ERROR, "Error updating password: connection lost")])).
Proof.
  assert (Hlen : 32 <= len (token Demo.consume)) by (vm_compute; discriminate).
  split; [exact Hlen |]. split; [reflexivity |].
  apply (reset_password_fails_after_write_when_clearing_raises (C := Demo.broken_clear)
           Demo.consume (Demo.world_tk 2000 []) [] Demo.alice_tk (Demo.world_tk 2000 [])
           (mkWorld [Demo.alice_new_tk; Demo.bob] 2000 [] []) "connection lost"
           (mkWorld [Demo.alice_new_tk; Demo.bob] 2000 [] []) Hlen eq_refl).
  - apply resolves_by_token. reflexivity.
  - reflexivity.
  - reflexivity.
Defined.

Lemma reset_password_lookup_raises_witness :
  32 <= len (token Demo.consume)
  /\ truthy (reset_email Demo.consume) = true
  /\ reset_password (C := Demo.broken_lookup) Demo.consume (Demo.world_tk 2000 [], [])
     = (Raise InternalFailure,
        (Demo.world_tk 2000 [],
         [(INFO, "Using demo token validation approach");
          (ERROR, "Unexpected error in reset_password: connection lost")])).
Proof.
  assert (Hlen : 32 <= len (token Demo.consume)) by (vm_compute; discriminate).
  split; [exact Hlen |]. split; [reflexivity |].
  apply (proj1 (reset_password_lookup_raises (C := Demo.broken_lookup) Demo.consume
                  (Demo.world_tk 2000 []) [] Hlen eq_refl)).
  reflexivity.
Defined.

Lemma update_user_profile_username_taken_witness :
  faults Demo.world0 = []
  /\ "bob" <> username Demo.alice
  /\ find (fun r => (username r =? "bob")%string) (users Demo.world0) = Some Demo.bob
  /\ update_user_profile (C := Demo.collab) (mkUserUpdate "bob" "a@x.com") Demo.alice
       (Demo.world0, [])
     = (Raise (HTTPException 500
                 "An error occurred while updating the profile: Username already exists"),
        (Demo.world0, [(ERROR, "Error updating user profile: Username already exists")])).
Proof.
  assert (Hne : "bob" <> username Demo.alice) by discriminate.
  split; [reflexivity |]. split; [exact Hne |]. split; [reflexivity |].
  apply (update_user_profile_username_taken (C := Demo.collab)
           (mkUserUpdate "bob" "a@x.com") Demo.alice Demo.world0 [] Demo.bob
           eq_refl Hne eq_refl).
Defined.

Lemma update_user_profile_email_taken_witness :
  faults Demo.world0 = []
  /\ "alice" = username Demo.alice
  /\ "b@x.com" <> email Demo.alice
  /\ find (fun r => (email r =? "b@x.com")%string) (users Demo.world0) = Some Demo.bob
  /\ update_user_profile (C := Demo.collab) (mkUserUpdate "alice" "b@x.com") Demo.alice
       (Demo.world0, [])
     = (Raise (HTTPException 500
                 "An error occurred while updating the profile: Email already exists"),
        (Demo.world0, [(ERROR, "Error updating user profile: Email already exists")])).
Proof.
  assert (Hne : "b@x.com" <> email Demo.alice) by discriminate.
  split; [reflexivity |]. split; [reflexivity |]. split; [exact Hne |].
  split; [reflexivity |].
  apply (update_user_profile_email_taken (C := Demo.collab)
           (mkUserUpdate "alice" "b@x.com") Demo.alice Demo.world0 [] Demo.bob
           eq_refl (or_introl eq_refl) Hne eq_refl).
Defined.

Lemma change_password_frame_witness :
  change_password (C := Demo.collab) (mkPasswordChange "P@ss1" "NewP@ss2") Demo.alice
    (Demo.world0, [])
  = (Return [("message", JStr "Password changed successfully")],
     (mkWorld [Demo.alice_new; Demo.bob] 1000 [Demo.TK] [], []))
  /\ verify_password (Collaborators := Demo.collab) "P@ss1" (hashed_password Demo.alice) = true.
Proof.
  split; [reflexivity |].
  apply (proj1 (change_password_frame (C := Demo.collab)
                  (mkPasswordChange "P@ss1" "NewP@ss2") Demo.alice Demo.world0 [] _
                  (mkWorld [Demo.alice_new; Demo.bob] 1000 [Demo.TK] []) [] eq_refl)).
Defined.

Lemma forgot_password_unregistered_writes_nothing_witness :
  get_user_by_email (Collaborators := Demo.collab) "nobody@x.com" Demo.world0
  = (inr None, Demo.world0)
  /\ forgot_password (C := Demo.collab) (mkForgot "nobody@x.com") (Demo.world0, [])
     = (Return generic_reset_response,
        (Demo.world0,
         [(INFO, "Forgot password request for non-existent email: nobody@x.com")])).
Proof.
  split; [reflexivity |].
  apply (forgot_password_unregistered_writes_nothing (C := Demo.collab)
           (mkForgot "nobody@x.com") Demo.world0 [] Demo.world0).
  reflexivity.
Defined.

Lemma forgot_password_expiry_one_hour_witness :
  store_reset_token (Collaborators := Demo.collab) 1 (Some Demo.TK) (Some (1000 + 3600000000))
    (mkWorld [Demo.alice; Demo.bob] 1000 [] [])
  = (inr true, mkWorld [Demo.alice_tk; Demo.bob] 1000 [] [])
  /\ fst (snd (forgot_password (C := Demo.collab) (mkForgot "a@x.com") (Demo.world0, [])))
     = mkWorld [Demo.alice_tk; Demo.bob] 1000 [] [].
Proof.
  split; [reflexivity |].
  apply (proj2 (forgot_password_expiry_one_hour (C := Demo.collab) (mkForgot "a@x.com")
                  Demo.world0 [] Demo.alice Demo.world0 Demo.TK
                  (mkWorld [Demo.alice; Demo.bob] 1000 [] []) true
                  (mkWorld [Demo.alice_tk; Demo.bob] 1000 [] [])
                  eq_refl eq_refl eq_refl)).
Defined.

(** ** Writes followed by lookups *)

Lemma not_in_find_none (p : User -> string) (x : string) rows :
  ~ In x (map p rows) -> find (fun r => (p r =? x)%string) rows = None.
Proof.
  intros Hni. destruct (find (fun r => (p r =? x)%string) rows) as [r |] eqn:E;
    [| reflexivity].
  apply find_some in E. destruct E as [Hin Heq]. apply String.eqb_eq in Heq.
  exfalso. apply Hni. rewrite <- Heq. apply in_map. exact Hin.
Qed.

Section RoundTrips.

Context {C : Collaborators}.

(** X20: after a successful registration, the row the table holds under the
    new username, and under the new email, is the row just created, with the
    hash of the password that was sent. *)
Theorem register_user_then_lookup :
  forall (user : UserCreate) (w : World) (l : list LogRecord) resp w' l',
    register_user user (w, l) = (Return resp, (w', l')) ->
    let row := new_user (fresh_id (users w)) (uc_username user) (uc_email user)
                 (get_password_hash (uc_password user)) in
    find (fun r => (username r =? uc_username user)%string) (users w') = Some row
    /\ find (fun r => (email r =? uc_email user)%string) (users w') = Some row.
Proof.
  intros user w l resp w' l' H row.
  destruct (register_user_inv _ _ _ _ _ _ H) as [_ [_ [Hrows [Hfu Hfe]]]].
  rewrite Hrows, !find_app_split.
  rewrite (not_in_find_none username _ _ Hfu), (not_in_find_none email _ _ Hfe).
  cbn [find new_user username email]. rewrite !String.eqb_refl. split; reflexivity.
Qed.

(** What a successful profile update did, and what the store checked. *)
Lemma update_user_profile_inv user_update current_user w l resp w' l' :
  update_user_profile user_update current_user (w, l) = (Return resp, (w', l')) ->
  users w' = update_where_id (id current_user)
               (set_profile (upd_username user_update) (upd_email user_update)) (users w)
  /\ violates_unique (id current_user) (upd_username user_update) (upd_email user_update)
       (users w) = false.
Proof.
  intros H. split; [exact (update_user_profile_rows _ _ _ _ _ _ _ H) |].
  unfold update_user_profile in H.
  apply try_except_inv_Return in H.
  2: { intros e [w1 l1]. eexists. eexists. reflexivity. }
  apply bind_inv_Return in H. destruct H as [[] [[wa la] [Ha H]]].
  apply bind_inv_Return in H. destruct H as [[] [[wb lb] [Hb H]]].
  apply bind_inv_Return in H. destruct H as [[] [[wc lc] [Hc _]]].
  assert (Ua : users wa = users w).
  { destruct (negb (upd_username user_update =? username current_user)%string).
    - apply bind_inv_Return in Ha. destruct Ha as [r [[wx lx] [Hs Hk]]].
      apply select_id_by_username_users in Hs. destruct Hs as [Hs _].
      destruct r; [discriminate Hk |]. injection Hk as Hk _. congruence.
    - injection Ha as Ha _. congruence. }
  assert (Ub : users wb = users wa).
  { destruct (negb (upd_email user_update =? email current_user)%string).
    - apply bind_inv_Return in Hb. destruct Hb as [r [[wx lx] [Hs Hk]]].
      apply select_id_by_email_users in Hs. destruct Hs as [Hs _].
      destruct r; [discriminate Hk |]. injection Hk as Hk _. congruence.
    - injection Hb as Hb _. congruence. }
  apply db_io_inv_Return in Hc. destruct Hc as [Hc _].
  rewrite Ub, Ua in Hc.
  destruct (violates_unique (id current_user) (upd_username user_update)
              (upd_email user_update) (users w)); [discriminate Hc | reflexivity].
Qed.

(** X21: after a successful profile update of a caller whose row is in the
    table, the row found under the new username, and the row found under the
    new email, is a row of the caller. *)
Theorem update_user_profile_then_lookup :
  forall (user_update : UserUpdate) (current_user : User)
         (w : World) (l : list LogRecord) resp w' l',
    update_user_profile user_update current_user (w, l) = (Return resp, (w', l')) ->
    In (id current_user) (map id (users w)) ->
    (exists r, find (fun r => (username r =? upd_username user_update)%string) (users w')
               = Some r /\ id r = id current_user)
    /\ (exists r, find (fun r => (email r =? upd_email user_update)%string) (users w')
                  = Some r /\ id r = id current_user).
Proof.
  intros user_update current_user w l resp w' l' H Hin.
  destruct (update_user_profile_inv _ _ _ _ _ _ _ H) as [Hrows Hv].
  apply in_map_iff in Hin. destruct Hin as [r0 [Hid0 Hin0]].
  unfold violates_unique in Hv. apply andb_false_iff in Hv.
  destruct Hv as [Hv | Hv].
  { exfalso. assert (Ht : existsb (fun u => id u =? id current_user) (users w) = true).
    { apply existsb_exists. exists r0. split; [exact Hin0 | apply Z.eqb_eq; exact Hid0]. }
    rewrite Ht in Hv. discriminate Hv. }
  set (g := fun u => if id u =? id current_user
                     then set_profile (upd_username user_update) (upd_email user_update) u
                     else u) in *.
  assert (Hothers : forall r, In r (users w) -> id r <> id current_user ->
                              (username r =? upd_username user_update)%string = false
                              /\ (email r =? upd_email user_update)%string = false).
  { intros r Hr Hne.
    destruct ((username r =? upd_username user_update)%string
              || (email r =? upd_email user_update)%string) eqn:E.
    - exfalso.
      assert (Ht : existsb (fun u => negb (id u =? id current_user)
                                     && ((username u =? upd_username user_update)%string
                                         || (email u =? upd_email user_update)%string))
                     (users w) = true).
      { apply existsb_exists. exists r. split; [exact Hr |].
        apply Z.eqb_neq in Hne. rewrite Hne, E. reflexivity. }
      rewrite Ht in Hv. discriminate Hv.
    - apply orb_false_iff in E. exact E. }
  assert (Hg0 : g r0 = set_profile (upd_username user_update) (upd_email user_update) r0).
  { unfold g. apply Z.eqb_eq in Hid0. rewrite Hid0. reflexivity. }
  assert (Hlookup : forall (p : User -> bool),
             p (g r0) = true ->
             (forall r, In r (users w) -> id r <> id current_user -> p r = false) ->
             exists r, find p (users w') = Some r /\ id r = id current_user).
  { intros p Hp0 Hpo. rewrite Hrows. unfold update_where_id. fold g.
    destruct (find p (map g (users w))) as [r |] eqn:E.
    - exists r. split; [reflexivity |].
      apply find_some in E. destruct E as [Hr Hpr].
      apply in_map_iff in Hr. destruct Hr as [r1 [Hr1 Hin1]].
      destruct (Z.eq_dec (id r1) (id current_user)) as [Heq | Hne].
      + subst r. unfold g. apply Z.eqb_eq in Heq. rewrite Heq.
        apply Z.eqb_eq in Heq. exact Heq.
      + exfalso. assert (Hg1 : g r1 = r1).
        { unfold g. apply Z.eqb_neq in Hne. rewrite Hne. reflexivity. }
        rewrite Hg1 in Hr1. subst r1. rewrite (Hpo r Hin1 Hne) in Hpr. discriminate Hpr.
    - exfalso. pose proof (find_none _ _ E (g r0) (in_map g _ _ Hin0)) as Hn.
      rewrite Hp0 in Hn. discriminate Hn. }
  split.
  - apply Hlookup.
    + rewrite Hg0. cbn. apply String.eqb_refl.
    + intros r Hr Hne. exact (proj1 (Hothers r Hr Hne)).
  - apply Hlookup.
    + rewrite Hg0. cbn. apply String.eqb_refl.
    + intros r Hr Hne. exact (proj2 (Hothers r Hr Hne)).
Qed.

End RoundTrips.

Lemma register_user_then_lookup_witness :
  register_user (C := Demo.collab) Demo.carol (Demo.world0, [])
  = (Return [("message", JStr "User created successfully")],
     (mkWorld [Demo.alice; Demo.bob; Demo.carol_row] 1000 [Demo.TK] [], []))
  /\ find (fun r => (username r =? "carol")%string) [Demo.alice; Demo.bob; Demo.carol_row]
     = Some Demo.carol_row.
Proof.
  split; [reflexivity |].
  apply (proj1 (register_user_then_lookup (C := Demo.collab) Demo.carol Demo.world0 [] _
                  (mkWorld [Demo.alice; Demo.bob; Demo.carol_row] 1000 [Demo.TK] []) []
                  eq_refl)).
Defined.

Lemma update_user_profile_then_lookup_witness :
  update_user_profile (C := Demo.collab) (mkUserUpdate "alice2" "a2@x.com") Demo.alice
    (Demo.world0, [])
  = (Return [("id", JInt 1); ("username", JStr "alice2"); ("email", JStr "a2@x.com");
             ("is_active", JBool true)],
     (mkWorld [Demo.alice_renamed; Demo.bob] 1000 [Demo.TK] [], []))
  /\ In (id Demo.alice) (map id (users Demo.world0))
  /\ exists r, find (fun r => (username r =? "alice2")%string) [Demo.alice_renamed; Demo.bob]
               = Some r /\ id r = id Demo.alice.
Proof.
  assert (Hin : In (id Demo.alice) (map id (users Demo.world0))) by (left; reflexivity).
  split; [reflexivity |]. split; [exact Hin |].
  apply (proj1 (update_user_profile_then_lookup (C := Demo.collab)
                  (mkUserUpdate "alice2" "a2@x.com") Demo.alice Demo.world0 [] _
                  (mkWorld [Demo.alice_renamed; Demo.bob] 1000 [Demo.TK] []) []
                  eq_refl Hin)).
Defined.
